(** * IDX stock screener: a shallow embedding of [flask_app.py]

    The development follows the data pipeline of the application:
    [load_historical_data], [calculate_indicators], [screen_and_extract],
    [create_plotly_json] and the ranking done by [analyze].

    Numbers.  The program computes with IEEE doubles held in pandas columns.
    They are modelled by [fval]: an exact rational, one of the two infinities,
    or NaN.  Rounding and the sign of zero are abstracted away; the special
    values that the program relies on (NaN for a missing value, the result of
    a division by zero) are kept, with the IEEE rules for them.

    Frames.  A pandas DataFrame is a number of rows together with a finite
    map from column labels to columns.  [calculate_indicators] assigns its
    columns in place, so it is written as a state transformer on the frame
    it receives; the value it returns is that same frame.

    Libraries.  The download ([yf.download]) and the sort of the result
    table ([sort_values]) are arguments of the functions that call them.
    Text built with format strings is represented by the values formatted. *)

From stdpp Require Import gmap strings list fin_maps numbers sorting.
From Stdlib Require Import QArith Qcanon.

Local Open Scope Qc_scope.

(** ** Floating-point values *)

Inductive fval : Type :=
  | Fin (q : Qc)
  | PInf
  | NInf
  | NaN.

#[global] Instance fval_eq_dec : EqDecision fval.
Proof. solve_decision. Defined.

#[global] Instance fval_inhabited : Inhabited fval := populate NaN.

Definition of_Z (n : Z) : fval := Fin (Qc_of_Z n).
Definition of_nat (n : nat) : fval := of_Z (Z.of_nat n).

Definition isnan (x : fval) : bool :=
  match x with NaN => true | _ => false end.

Definition notna (x : fval) : bool := negb (isnan x).

(** The sign of an exact rational: [Lt] negative, [Eq] zero, [Gt] positive. *)
Definition Qc_sign (q : Qc) : comparison := (q ?= 0)%Qc.

Definition fneg (x : fval) : fval :=
  match x with
  | Fin q => Fin (- q)
  | PInf => NInf
  | NInf => PInf
  | NaN => NaN
  end.

Definition fadd (x y : fval) : fval :=
  match x, y with
  | NaN, _ | _, NaN => NaN
  | Fin a, Fin b => Fin (a + b)
  | PInf, NInf | NInf, PInf => NaN
  | PInf, _ | _, PInf => PInf
  | NInf, _ | _, NInf => NInf
  end.

Definition fsub (x y : fval) : fval := fadd x (fneg y).

(** An infinity of the sign given by [c]; NaN when [c] is [Eq] (0 * inf). *)
Definition inf_of_sign (c : comparison) : fval :=
  match c with Gt => PInf | Lt => NInf | Eq => NaN end.

Definition fmul (x y : fval) : fval :=
  match x, y with
  | NaN, _ | _, NaN => NaN
  | Fin a, Fin b => Fin (a * b)
  | Fin a, PInf | PInf, Fin a => inf_of_sign (Qc_sign a)
  | Fin a, NInf | NInf, Fin a => inf_of_sign (CompOpp (Qc_sign a))
  | PInf, PInf | NInf, NInf => PInf
  | PInf, NInf | NInf, PInf => NInf
  end.

(** Division by zero follows numpy: x/0 is an infinity of the sign of x, and
    0/0 is NaN; no exception is raised. *)
Definition fdiv (x y : fval) : fval :=
  match x, y with
  | NaN, _ | _, NaN => NaN
  | Fin a, Fin b =>
      if decide (b = 0) then inf_of_sign (Qc_sign a) else Fin (a / b)
  | Fin _, PInf | Fin _, NInf => Fin 0
  | PInf, Fin b => match Qc_sign b with Lt => NInf | _ => PInf end
  | NInf, Fin b => match Qc_sign b with Lt => PInf | _ => NInf end
  | _, _ => NaN
  end.

(** Comparisons; every comparison with NaN is false. *)
Definition flt (x y : fval) : bool :=
  match x, y with
  | NaN, _ | _, NaN => false
  | Fin a, Fin b => bool_decide (a < b)
  | Fin _, PInf | NInf, Fin _ | NInf, PInf => true
  | _, _ => false
  end.

Definition fle (x y : fval) : bool :=
  match x, y with
  | NaN, _ | _, NaN => false
  | Fin a, Fin b => bool_decide (a ≤ b)
  | Fin _, NInf | PInf, Fin _ | PInf, NInf => false
  | _, _ => true
  end.

Definition fgt (x y : fval) : bool := flt y x.
Definition fge (x y : fval) : bool := fle y x.

Definition fsum (xs : list fval) : fval := foldr fadd (Fin 0) xs.


(** ** Exceptions *)

Inductive exn : Type :=
  | KeyError (key : string)
  | IndexError
  | ValueError (msg : string).

#[global] Instance exn_eq_dec : EqDecision exn.
Proof. solve_decision. Defined.

(** A computation that returns a value or raises. *)
Definition Exc (A : Type) : Type := exn + A.

Definition raise {A} (e : exn) : Exc A := inl e.
Definition ret {A} (a : A) : Exc A := inr a.
Definition bind {A B} (m : Exc A) (k : A → Exc B) : Exc B :=
  match m with
  | inl e => inl e
  | inr a => k a
  end.

Declare Scope exc_scope.
Delimit Scope exc_scope with exc.
Notation "'let!' x ':=' m 'in' k" := (bind m (λ x, k))
  (at level 10, x pattern, m at level 100, k at level 200) : exc_scope.
Local Open Scope exc_scope.

(** ** Series *)

(** A pandas Series of float64 values, by position. *)
Abbreviation Series := (list fval).

(** [s.shift(n)]: move the values [n] positions down (up when [n] is
    negative), filling with NaN; the length is kept. *)
Definition shift (n : Z) (s : Series) : Series :=
  if decide (0 ≤ n)%Z
  then take (length s) (replicate (Z.to_nat n) NaN ++ s)
  else
    let k := Z.to_nat (- n) in
    drop k s ++ replicate (k `min` length s) NaN.

(** Elementwise arithmetic on two series with the same index. *)
Definition sdiv (a b : Series) : Series := zip_with fdiv a b.
Definition ssub (a b : Series) : Series := zip_with fsub a b.

(** [s.diff()] is [s - s.shift(1)]. *)
Definition diff (s : Series) : Series := ssub s (shift 1 s).

(** [s.where(cond, other)]: keep the value where [cond] holds, put [other]
    elsewhere (a NaN never satisfies a comparison, so it is replaced). *)
Definition where_ (cond : fval → bool) (other : fval) (s : Series) : Series :=
  (λ x, if cond x then x else other) <$> s.

(** The window of [rolling(window=w)] that ends at position [i]: positions
    [max 0 (i+1-w)] to [i], both included. *)
Definition window_at (w : nat) (s : Series) (i : nat) : Series :=
  drop (S i - w) (take (S i) s).

(** One value of [rolling(window=w).mean()].  pandas counts the observations
    (non-NaN values) of the window, and gives their mean when there are at
    least [min_periods] of them, [min_periods] being the window size, and at
    least one; it gives NaN otherwise.  The sum is taken over the window;
    pandas keeps a running sum, which has the same value on the numbers and
    NaNs that a column of prices or volumes holds. *)
Definition roll_mean_at (w : nat) (s : Series) (i : nat) : fval :=
  let obs := filter (λ x, notna x = true) (window_at w s i) in
  let nobs := length obs in
  if bool_decide (w ≤ nobs)%nat && bool_decide (0 < nobs)%nat
  then fdiv (fsum obs) (of_nat nobs)
  else NaN.

(** [s.rolling(window=w).mean()]; a negative window is refused. *)
Definition rolling_mean (window : Z) (s : Series) : Exc Series :=
  if decide (window < 0)%Z
  then raise (ValueError "window must be an integer 0 or greater")
  else ret (roll_mean_at (Z.to_nat window) s <$> seq 0 (length s)).

(** ** Frames *)

Record DataFrame : Type := mkDataFrame {
  df_len : nat;                      (* len(df): the number of rows *)
  df_cols : gmap string Series;      (* the columns, by label *)
}.

#[global] Instance DataFrame_eq_dec : EqDecision DataFrame.
Proof. solve_decision. Defined.

(** [pd.DataFrame()] *)
Definition empty_df : DataFrame := mkDataFrame 0 ∅.

(** [df.empty]: no row or no column. *)
Definition df_empty (df : DataFrame) : bool :=
  bool_decide (df_len df = 0%nat) || bool_decide (df_cols df = ∅).

(** [df[label]]: a column is aligned on the index of the frame, so it always
    has [len(df)] values. *)
Definition getitem (df : DataFrame) (label : string) : Exc Series :=
  match df_cols df !! label with
  | Some s => ret (resize (df_len df) NaN s)
  | None => raise (KeyError label)
  end.

(** [df[label] = s], in place. *)
Definition setitem (df : DataFrame) (label : string) (s : Series) : DataFrame :=
  mkDataFrame (df_len df) (<[label := s]> (df_cols df)).

(** A row of a frame: the values of one position, by column label. *)
Abbreviation Row := (gmap string fval).

Definition row_at (df : DataFrame) (i : nat) : Row :=
  (λ s, resize (df_len df) NaN s !!! i) <$> df_cols df.

(** [df.iloc[-k]] for [k] = 1, 2. *)
Definition iloc_neg (df : DataFrame) (k : nat) : Exc Row :=
  if decide (df_len df < k)%nat then raise IndexError
  else ret (row_at df (df_len df - k)).

(** [row[label]] and [row.get(label, default)]. *)
Definition row_getitem (r : Row) (label : string) : Exc fval :=
  match r !! label with
  | Some x => ret x
  | None => raise (KeyError label)
  end.

Definition row_get (r : Row) (label : string) (dflt : fval) : fval :=
  default dflt (r !! label).

(** ** calculate_indicators *)

Record IndicatorParams : Type := mkIndicatorParams {
  sma_short : Z;
  sma_long : Z;
  rsi_period : Z;
  vol_period : Z;
  hist_days : Z;
}.

(** A statement that works on the frame [df] in place: it leaves the frame in
    a new state, and either completes or raises. *)
Definition Stmt : Type := DataFrame → DataFrame * Exc unit.

(** [df[label] = e], where evaluating [e] reads the frame and may raise; on
    an exception the frame is left as it was. *)
Definition assign (label : string) (e : DataFrame → Exc Series) : Stmt :=
  λ df, match e df with
        | inl err => (df, inl err)
        | inr s => (setitem df label s, inr ())
        end.

Definition seq_stmt (a b : Stmt) : Stmt :=
  λ df, match a df with
        | (df', inl err) => (df', inl err)
        | (df', inr _) => b df'
        end.

Infix ";;" := seq_stmt (at level 100, right associativity) : exc_scope.

(** [(df['Close'] / df['Close'].shift(hist_days) - 1) * 100] *)
Definition hist_return (n : Z) (close : Series) : Series :=
  (λ q, fmul (fsub q (Fin 1)) (of_Z 100)) <$> sdiv close (shift n close).

(** [delta.where(delta > 0, 0)] and [-delta.where(delta < 0, 0)] *)
Definition gains (delta : Series) : Series :=
  where_ (λ d, fgt d (Fin 0)) (Fin 0) delta.
Definition losses (delta : Series) : Series :=
  fneg <$> where_ (λ d, flt d (Fin 0)) (Fin 0) delta.

(** [100 - (100 / (1 + rs))] *)
Definition rsi_of (rs : fval) : fval :=
  fsub (of_Z 100) (fdiv (of_Z 100) (fadd (Fin 1) rs)).

Definition rsi_series (rsi_period : Z) (close : Series) : Exc Series :=
  let delta := diff close in
  let! gain := rolling_mean rsi_period (gains delta) in
  let! loss := rolling_mean rsi_period (losses delta) in
  let rs := sdiv gain loss in
  ret (rsi_of <$> rs).

Definition calculate_indicators (p : IndicatorParams) : Stmt :=
  assign "Hist_Return_30D"
    (λ df, let! close := getitem df "Close" in ret (hist_return (hist_days p) close)) ;;
  assign "Avg_Volume"
    (λ df, let! volume := getitem df "Volume" in rolling_mean (vol_period p) volume) ;;
  assign "SMA_Short"
    (λ df, let! close := getitem df "Close" in rolling_mean (sma_short p) close) ;;
  assign "SMA_Long"
    (λ df, let! close := getitem df "Close" in rolling_mean (sma_long p) close) ;;
  assign "RSI"
    (λ df, let! close := getitem df "Close" in rsi_series (rsi_period p) close).

(** ** create_plotly_json *)

(** The figures are built by the charting library from the series handed to
    it; a chart is represented by those series and the labels of its traces. *)
Record Chart : Type := mkChart {
  chart_title : string;
  chart_open : Series;
  chart_high : Series;
  chart_low : Series;
  chart_close : Series;
  chart_sma_short : Series;
  chart_sma_short_name : Z;
  chart_sma_long : Series;
  chart_sma_long_name : Z;
  chart_volume : Series;
  chart_rsi : Series;
}.

Definition create_plotly_json (df : DataFrame) (ticker : string)
    (indicators : IndicatorParams) : Exc Chart :=
  let! o := getitem df "Open" in
  let! h := getitem df "High" in
  let! l := getitem df "Low" in
  let! c := getitem df "Close" in
  let! s := getitem df "SMA_Short" in
  let! g := getitem df "SMA_Long" in
  let! v := getitem df "Volume" in
  let! r := getitem df "RSI" in
  ret (mkChart ticker o h l c s (sma_short indicators) g (sma_long indicators) v r).

(** ** screen_and_extract *)

Definition IHSG_TICKER : string := "^JKSE".

Record CriteriaParams : Type := mkCriteriaParams {
  open_ratio : fval;
  min_price : Z;
  min_volume_shares : Z;
}.

(** One record of [results].  The fields that the program stores as formatted
    text hold the number that is formatted. *)
Record ScreeningResult : Type := mkScreeningResult {
  Ticker : string;
  Harga_Terakhir : fval;       (* current_close *)
  Gain_30D : fval;             (* return_30d, the sort key *)
  Open_Close_Ratio : fval;     (* current_open / yesterday_close *)
  Open_Hari_Ini : fval;        (* current_open *)
  Close_Kemarin : fval;        (* yesterday_close *)
  Volume_Hari_Ini : fval;      (* current_volume *)
  Avg_Volume_20D : fval;       (* avg_volume *)
  RSI : fval;
}.

#[global] Instance ScreeningResult_eq_dec : EqDecision ScreeningResult.
Proof. solve_decision. Defined.

(** The table handed to [screen_and_extract].  Its columns are either a
    two-level index, the second level being the ticker, or a single level.
    A two-level table is given by the tickers of the second level, in column
    order, each with the frame of its columns; should a ticker occur twice,
    its first frame is the one selected.  A single-level table is a frame
    with the name of its column index and its first column label. *)
Inductive Frame : Type :=
  | MultiFrame (groups : list (string * DataFrame))
  | FlatFrame (columns_name : option string) (columns_0 : string) (df : DataFrame).

(** [pd.DataFrame()] as a table. *)
Definition empty_frame : Frame := FlatFrame None "" empty_df.

(** [full_data.loc[:, (slice(None), ticker)].droplevel(1, axis=1)] *)
Definition select_ticker (groups : list (string * DataFrame)) (ticker : string)
    : Exc DataFrame :=
  match (list_to_map groups : gmap string DataFrame) !! ticker with
  | Some df => ret df
  | None => raise (KeyError ticker)
  end.

(** The first lines of [screen_and_extract]: the tickers found in the table,
    or [None] when the function returns at once. *)
Definition tickers_available (full_data : Frame) : option (list string) :=
  match full_data with
  | MultiFrame groups => Some (remove_dups groups.*1)
  | FlatFrame name c0 df =>
      if negb (df_empty df)
      then Some (if bool_decide (name = Some "Ticker") then [c0] else [IHSG_TICKER])
      else None
  end.

(** The printed benchmark status: "N/A", or the latest close followed by the
    change in percent. *)
Inductive Status : Type :=
  | StatusNA
  | StatusQuote (ihsg_latest ihsg_change : fval).

#[global] Instance Status_eq_dec : EqDecision Status.
Proof. solve_decision. Defined.

(** [s.iloc[-k]] on a series. *)
Definition series_iloc_neg (s : Series) (k : nat) : Exc fval :=
  if decide (length s < k)%nat then raise IndexError
  else ret (s !!! (length s - k)%nat).

Definition ihsg_analysis (ihsg_data : option DataFrame) : Exc (Status * fval) :=
  match ihsg_data with
  | Some d =>
      if negb (df_empty d) then
        let! close := getitem d "Close" in
        let! ihsg_latest := series_iloc_neg close 1 in
        let! ihsg_prev_close :=
          (if decide (1 < df_len d)%nat then series_iloc_neg close 2
           else ret ihsg_latest) in
        let ihsg_change :=
          fmul (fsub (fdiv ihsg_latest ihsg_prev_close) (Fin 1)) (of_Z 100) in
        ret (StatusQuote ihsg_latest ihsg_change, ihsg_change)
      else ret (StatusNA, of_Z 0)
  | None => ret (StatusNA, of_Z 0)
  end.

(** The frame of one ticker, or [None] for the [continue] of the loop. *)
Definition extract_ticker (full_data : Frame) (ticker : string)
    : Exc (option DataFrame) :=
  match full_data with
  | MultiFrame groups =>
      let! stock_df := select_ticker groups ticker in ret (Some stock_df)
  | FlatFrame name c0 df =>
      if bool_decide (name = Some "Ticker") && negb (bool_decide (c0 = ticker))
      then ret None
      else ret (Some df)
  end.

(** The three hard filters on the values read from the latest bar. *)
Definition open_ratio_ok (c : CriteriaParams) (current_open yesterday_close : fval) : bool :=
  fgt current_open (fmul (open_ratio c) yesterday_close).
Definition min_price_ok (c : CriteriaParams) (current_close : fval) : bool :=
  fge current_close (of_Z (min_price c)).
Definition min_volume_ok (c : CriteriaParams) (current_volume : fval) : bool :=
  fgt current_volume (of_Z (min_volume_shares c)).

(** The body of the [try] up to the test of the filters: the record to
    append together with the frame to chart, or [None] when a filter fails
    or the ticker is passed over. *)
Definition examine_ticker (full_data : Frame) (criteria_params : CriteriaParams)
    (indicator_params : IndicatorParams) (ticker : string)
    : Exc (option (ScreeningResult * DataFrame)) :=
  let! extracted := extract_ticker full_data ticker in
  match extracted with
  | None => ret None
  | Some stock_df0 =>
      match calculate_indicators indicator_params stock_df0 with
      | (_, inl err) => raise err
      | (stock_df, inr _) =>
          let! latest := iloc_neg stock_df 1 in
          let! yesterday :=
            (if decide (1 < df_len stock_df)%nat then iloc_neg stock_df 2
             else ret latest) in
          let! current_close := row_getitem latest "Close" in
          let! yesterday_close := row_getitem yesterday "Close" in
          let! current_open := row_getitem latest "Open" in
          let! current_volume := row_getitem latest "Volume" in
          let avg_volume := row_get latest "Avg_Volume" (of_Z 1) in
          let return_30d := row_get latest "Hist_Return_30D" (of_Z (-999)) in
          if open_ratio_ok criteria_params current_open yesterday_close
             && min_price_ok criteria_params current_close
             && min_volume_ok criteria_params current_volume
          then
            ret (Some (mkScreeningResult ticker current_close return_30d
                         (fdiv current_open yesterday_close) current_open
                         yesterday_close current_volume avg_volume
                         (row_get latest "RSI" NaN),
                       stock_df))
          else ret None
      end
  end.

(** The state of the loop: [results] and [chart_jsons]. *)
Abbreviation LoopState := (list ScreeningResult * gmap string Chart)%type.

(** One turn of the loop.  An exception raised anywhere in the body is
    caught and the loop goes on; the record is appended before the chart is
    made, so an exception raised while charting leaves it in [results]. *)
Definition process_ticker (full_data : Frame) (criteria_params : CriteriaParams)
    (indicator_params : IndicatorParams) (st : LoopState) (ticker : string)
    : LoopState :=
  let '(results, chart_jsons) := st in
  match examine_ticker full_data criteria_params indicator_params ticker with
  | inl _ => (results, chart_jsons)
  | inr None => (results, chart_jsons)
  | inr (Some (result, stock_df)) =>
      let results := results ++ [result] in
      match create_plotly_json stock_df ticker indicator_params with
      | inl _ => (results, chart_jsons)
      | inr chart => (results, <[ticker := chart]> chart_jsons)
      end
  end.

Definition screen_and_extract (full_data : Frame) (ihsg_data : option DataFrame)
    (criteria_params : CriteriaParams) (indicator_params : IndicatorParams)
    : Exc (list ScreeningResult * gmap string Chart * Status * fval) :=
  match tickers_available full_data with
  | None => ret ([], ∅, StatusNA, of_Z 0)
  | Some available =>
      let! ihsg := ihsg_analysis ihsg_data in
      let '(ihsg_status, ihsg_change) := ihsg in
      let tickers_to_process := filter (λ t, t ≠ IHSG_TICKER) available in
      let '(results, chart_jsons) :=
        foldl (process_ticker full_data criteria_params indicator_params)
              ([], ∅) tickers_to_process in
      ret (results, chart_jsons, ihsg_status, ihsg_change)
  end.

(** ** load_historical_data *)

(** [data.loc[:, (slice(None), labels)]]: the columns of the listed tickers,
    in the order of the table; a label that the table does not have is a
    [KeyError]. *)
Definition loc_level1 (groups : list (string * DataFrame)) (labels : list string)
    : Exc (list (string * DataFrame)) :=
  match filter (λ t, t ∉ groups.*1) labels with
  | [] => ret (filter (λ g, g.1 ∈ labels) groups)
  | t :: _ => raise (KeyError t)
  end.

(** [yf_download] stands for [yf.download]: given the set of tickers and the
    period it returns a table or raises. *)
Definition load_historical_data
    (yf_download : gset string → string → Exc Frame)
    (tickers : list string) (period : string) : Frame * option DataFrame :=
  let attempt : Exc (Frame * option DataFrame) :=
    let download_tickers : gset string := list_to_set (tickers ++ [IHSG_TICKER]) in
    let! data := yf_download download_tickers period in
    let stock_data_cols := filter (λ t, t ≠ IHSG_TICKER) tickers in
    match data with
    | MultiFrame groups =>
        let! stock_data := loc_level1 groups stock_data_cols in
        let! ihsg_data :=
          (if bool_decide (IHSG_TICKER ∈ groups.*1)
           then let! d := select_ticker groups IHSG_TICKER in ret (Some d)
           else ret None) in
        ret (MultiFrame stock_data, ihsg_data)
    | FlatFrame _ _ _ => ret (data, None)
    end in
  match attempt with
  | inr r => r
  | inl _ => (empty_frame, Some empty_df)
  end.

(** ** analyze *)

(** The values read from the form, after [float] and [int] have parsed
    them; [tickers_list] is the list of symbols after splitting and
    upper-casing. *)
Record Form : Type := mkForm {
  form_tickers_list : list string;
  form_period : string;
  form_open_ratio : fval;
  form_min_price : Z;
  form_min_volume_shares : Z;
  form_sma_short : Z;
  form_sma_long : Z;
  form_rsi_period : Z;
}.

(** The text shown to the user on an error: the text of a [ValueError], or
    the generic text built around another exception. *)
Inductive Message : Type :=
  | Plain (text : string)
  | Unexpected (e : exn).

#[global] Instance Message_eq_dec : EqDecision Message.
Proof. solve_decision. Defined.

(** What the template is rendered with. *)
Inductive Page : Type :=
  | ResultsPage (results : list ScreeningResult) (chart_jsons : gmap string Chart)
                (ihsg_status : Status) (ihsg_change : fval)
  | ErrorPage (error_message : Message).

Definition no_ticker_message : string :=
  "Harap masukkan minimal satu ticker saham (contoh: BBCA.JK) untuk di-screen.".
Definition no_result_message : string :=
  "Tidak ada saham yang lolos kriteria screening yang Anda tentukan.".

(** [dropna(subset=['Gain 30D (%)'])] *)
Definition dropna (rows : list ScreeningResult) : list ScreeningResult :=
  filter (λ r, notna (Gain_30D r) = true) rows.

(** The order of [sort_values(by=['Gain 30D (%)'], ascending=False)]: [a] may
    come before [b] when the key of [b] is NaN (NaN keys are put last) or
    the key of [a] is at least the key of [b]. *)
Definition key_before (a b : fval) : bool := isnan b || fge a b.

Definition row_before (a b : ScreeningResult) : Prop :=
  key_before (Gain_30D a) (Gain_30D b) = true.

(** What [sort_values] guarantees with the default [kind='quicksort']: the
    rows are rearranged into the order above.  The place of rows with equal
    keys is left to the sorting algorithm. *)
Definition sort_values_contract
    (sort_values : list ScreeningResult → list ScreeningResult) : Prop :=
  ∀ rows, sort_values rows ≡ₚ rows ∧ StronglySorted row_before (sort_values rows).

(** The ranking of [analyze]: sort, then drop the rows without a key. *)
Definition rank (sort_values : list ScreeningResult → list ScreeningResult)
    (results : list ScreeningResult) : list ScreeningResult :=
  dropna (sort_values results).

Definition criteria_of_form (form : Form) : CriteriaParams :=
  mkCriteriaParams (form_open_ratio form) (form_min_price form)
                   (form_min_volume_shares form).

Definition indicators_of_form (form : Form) : IndicatorParams :=
  mkIndicatorParams (form_sma_short form) (form_sma_long form)
                    (form_rsi_period form) 20 30.

Definition analyze
    (yf_download : gset string → string → Exc Frame)
    (sort_values : list ScreeningResult → list ScreeningResult)
    (form : Form) : Page :=
  let selected_tickers_list := form_tickers_list form in
  let criteria_params := criteria_of_form form in
  let indicator_params := indicators_of_form form in
  let body : Exc Page :=
    if bool_decide (selected_tickers_list = [])
    then raise (ValueError no_ticker_message)
    else
      let all_data_tickers :=
        elements (list_to_set (selected_tickers_list ++ [IHSG_TICKER]) : gset string) in
      let '(full_data, ihsg_data) :=
        load_historical_data yf_download all_data_tickers (form_period form) in
      let! screened :=
        screen_and_extract full_data ihsg_data criteria_params indicator_params in
      let '(results, chart_jsons, ihsg_status, ihsg_change) := screened in
      if bool_decide (results = [])
      then raise (ValueError no_result_message)
      else ret (ResultsPage (rank sort_values results) chart_jsons
                            ihsg_status ihsg_change) in
  match body with
  | inr page => page
  | inl (ValueError msg) => ErrorPage (Plain msg)
  | inl e => ErrorPage (Unexpected e)
  end.

(** ** Notions used in the statements *)

(** The windows that [rolling] accepts. *)
Definition valid_windows (p : IndicatorParams) : Prop :=
  (0 ≤ sma_short p)%Z ∧ (0 ≤ sma_long p)%Z ∧
  (0 ≤ rsi_period p)%Z ∧ (0 ≤ vol_period p)%Z.

(** The columns that [calculate_indicators] assigns. *)
Definition indicator_labels : list string :=
  ["Hist_Return_30D"; "Avg_Volume"; "SMA_Short"; "SMA_Long"; "RSI"].

(** The value of [rolling(window).mean()] for a window that [rolling]
    accepts. *)
Definition rolled (window : Z) (s : Series) : Series :=
  roll_mean_at (Z.to_nat window) s <$> seq 0 (length s).

(** The RSI column computed from the closes, for an accepted window. *)
Definition rsi_column (window : Z) (close : Series) : Series :=
  rsi_of <$> sdiv (rolled window (gains (diff close)))
                  (rolled window (losses (diff close))).

(** The frame that a complete run of [calculate_indicators] leaves. *)
Definition with_indicators (p : IndicatorParams) (df : DataFrame)
    (close volume : Series) : DataFrame :=
  setitem (setitem (setitem (setitem (setitem df
    "Hist_Return_30D" (hist_return (hist_days p) close))
    "Avg_Volume" (rolled (vol_period p) volume))
    "SMA_Short" (rolled (sma_short p) close))
    "SMA_Long" (rolled (sma_long p) close))
    "RSI" (rsi_column (rsi_period p) close).


(** The five columns of the data provider. *)
Definition ohlcv_labels : list string :=
  ["Open"; "High"; "Low"; "Close"; "Volume"].

(** ** Sample data *)

Definition series_of (xs : list Z) : Series := of_Z <$> xs.

(** A frame with the five columns of the data provider. *)
Definition ohlcv (open high low close volume : list Z) : DataFrame :=
  mkDataFrame (length close)
    (<["Open" := series_of open]> (<["High" := series_of high]>
    (<["Low" := series_of low]> (<["Close" := series_of close]>
    (<["Volume" := series_of volume]> ∅))))).

Definition small_params : IndicatorParams := mkIndicatorParams 2 3 2 2 2.



(** The criteria that the form proposes. *)
Definition default_criteria : CriteriaParams :=
  mkCriteriaParams (Fin (Qc_of_Z 1015 / Qc_of_Z 1000)) 50 5000000.

(** Three bars of a ticker that opens well above the previous close, on a
    large volume. *)
Definition rally_frame : DataFrame :=
  ohlcv [100; 100; 128]%Z [101; 102; 130]%Z [99; 98; 119]%Z [100; 100; 120]%Z
        [6000000; 6000000; 9000000]%Z.

(** The same bars without the column of the highs. *)
Definition no_high_frame : DataFrame :=
  mkDataFrame (df_len rally_frame) (delete "High" (df_cols rally_frame)).

(** Three bars of a ticker that trades too little. *)
Definition thin_frame : DataFrame :=
  ohlcv [100; 100; 128]%Z [101; 102; 130]%Z [99; 98; 119]%Z [100; 100; 120]%Z
        [1000; 1000; 1000]%Z.

(** A benchmark with a single bar. *)
Definition one_bar_benchmark : DataFrame :=
  ohlcv [7000]%Z [7010]%Z [6990]%Z [7000]%Z [0]%Z.

(** The criteria [c] with the minimum price set to [m]. *)
Definition with_min_price (c : CriteriaParams) (m : Z) : CriteriaParams :=
  mkCriteriaParams (open_ratio c) m (min_volume_shares c).

(** The position of the bar before the latest one; the latest one itself
    when the frame has a single bar. *)
Definition prior_position (n : nat) : nat :=
  if decide (1 < n)%nat then (n - 2)%nat else (n - 1)%nat.

(** ** Sorting *)

#[global] Instance row_before_dec : RelDecision row_before.
Proof. intros a b. unfold row_before. apply _. Defined.

(** A sort that keeps rows with equal keys in their order of arrival, and
    one that reverses them.  Both put the rows in the order of
    [sort_values]. *)
Definition stable_sort (rows : list ScreeningResult) : list ScreeningResult :=
  merge_sort row_before rows.



(** ** Responses of the data provider *)

(** A response without any bar: the download raised, or the table has no
    row (or, for a single-level table, no column). *)
Definition wholly_empty (response : Exc Frame) : Prop :=
  match response with
  | inl _ => True
  | inr (FlatFrame _ _ df) => df_empty df = true
  | inr (MultiFrame groups) => Forall (λ g, df_len g.2 = 0%nat) groups
  end.

(** A provider that has nothing, and one that has bars for a ticker that
    trades too little to pass the filters. *)
Definition download_nothing : gset string → string → Exc Frame :=
  λ _ _, ret empty_frame.
Definition download_thin : gset string → string → Exc Frame :=
  λ _ _, ret (MultiFrame [("TLKM.JK", thin_frame);
                          (IHSG_TICKER, one_bar_benchmark)]).

Definition thin_form : Form :=
  mkForm ["TLKM.JK"] "6mo" (Fin (Qc_of_Z 1015 / Qc_of_Z 1000)) 50 5000000
         2 3 2.

(** ** Ranges of values *)





(** ** Notions used in further statements *)

(** The criteria [c] with the minimum volume set to [m]. *)
Definition with_min_volume (c : CriteriaParams) (m : Z) : CriteriaParams :=
  mkCriteriaParams (open_ratio c) (min_price c) m.

(** What [screen_and_extract] returns when no ticker contributes: the early
    return, or the status of the benchmark with no record and no chart. *)
Definition no_record (full : Frame) (ihsg : option DataFrame)
    : Exc (list ScreeningResult * gmap string Chart * Status * fval) :=
  match tickers_available full with
  | None => ret ([], ∅, StatusNA, of_Z 0)
  | Some _ =>
      let! status := ihsg_analysis ihsg in
      ret ([], ∅, status.1, status.2)
  end.

(** A response in which no ticker has more than [days] bars. *)
Definition short_history (days : nat) (response : Exc Frame) : Prop :=
  match response with
  | inl _ => True
  | inr (FlatFrame _ _ df) => (df_len df ≤ days)%nat
  | inr (MultiFrame groups) => Forall (λ g, (df_len g.2 ≤ days)%nat) groups
  end.

(** A provider with three bars of a ticker that passes the filters. *)
Definition download_rally : gset string → string → Exc Frame :=
  λ _ _, ret (MultiFrame [("BBCA.JK", rally_frame);
                          (IHSG_TICKER, one_bar_benchmark)]).
Definition rally_form : Form :=
  mkForm ["BBCA.JK"] "6mo" (Fin (Qc_of_Z 1015 / Qc_of_Z 1000)) 50 5000000
         2 3 2.

(** ** The form of the analyze route *)

(** Text as a list of characters.  The functions below follow Python on
    ASCII text, which is what ticker symbols are made of. *)
Abbreviation chars := String.list_ascii_of_string.
Abbreviation text := String.string_of_list_ascii.

Definition ascii_text (s : string) : Prop :=
  Forall (λ ch, (Ascii.nat_of_ascii ch < 128)%nat) (chars s).

(** The characters ',', '\n', '\r' and ' '. *)
Definition comma : Ascii.ascii := Ascii.ascii_of_nat 44.
Definition newline : Ascii.ascii := Ascii.ascii_of_nat 10.
Definition carriage_return : Ascii.ascii := Ascii.ascii_of_nat 13.
Definition space : Ascii.ascii := Ascii.ascii_of_nat 32.

(** [ch.isspace()]: the codes 9 to 13 and 28 to 32. *)
Definition isspace (ch : Ascii.ascii) : bool :=
  let n := Ascii.nat_of_ascii ch in
  ((9 <=? n)%nat && (n <=? 13)%nat) || ((28 <=? n)%nat && (n <=? 32)%nat).

(** [s.replace(old, new)] for single characters. *)
Definition replace_char (old new : Ascii.ascii) (s : list Ascii.ascii) : list Ascii.ascii :=
  (λ ch, if decide (ch = old) then new else ch) <$> s.

(** [s.split()]: the maximal runs of characters that are not white space.
    [cur] holds the run being read, latest character first. *)
Fixpoint split_go (cur : list Ascii.ascii) (s : list Ascii.ascii) : list (list Ascii.ascii) :=
  match s with
  | [] => match cur with [] => [] | _ => [reverse cur] end
  | ch :: s' =>
      if isspace ch
      then match cur with
           | [] => split_go [] s'
           | _ => reverse cur :: split_go [] s'
           end
      else split_go (ch :: cur) s'
  end.
Definition split (s : list Ascii.ascii) : list (list Ascii.ascii) := split_go [] s.

(** [s.strip()] *)
Fixpoint lstrip (s : list Ascii.ascii) : list Ascii.ascii :=
  match s with
  | ch :: s' => if isspace ch then lstrip s' else s
  | [] => []
  end.
Definition strip (s : list Ascii.ascii) : list Ascii.ascii :=
  reverse (lstrip (reverse (lstrip s))).

(** [s.upper()] *)
Definition upper_char (ch : Ascii.ascii) : Ascii.ascii :=
  let n := Ascii.nat_of_ascii ch in
  if (97 <=? n)%nat && (n <=? 122)%nat then Ascii.ascii_of_nat (n - 32) else ch.
Definition upper (s : list Ascii.ascii) : list Ascii.ascii := upper_char <$> s.

(** [s.replace(',', ' ').replace('\n', ' ').replace('\r', ' ')] *)
Definition clean_separators (s : list Ascii.ascii) : list Ascii.ascii :=
  replace_char carriage_return space
    (replace_char newline space (replace_char comma space s)).

(** The list of tickers read from the text area:
    [[t.strip().upper() for t in tickers_str.split() if t.strip()]]. *)
Definition selected_tickers (tickers_str : string) : list string :=
  (λ t, text (upper (strip t)))
    <$> filter (λ t, strip t ≠ []) (split (clean_separators (chars tickers_str))).

(** A character that a ticker read from the form can hold: not white
    space, not a comma, not a lower-case letter. *)
Definition ticker_char (ch : Ascii.ascii) : Prop :=
  isspace ch = false ∧ ch ≠ comma ∧ upper_char ch = ch.

(** A run of characters without white space. *)
Definition no_space (t : list Ascii.ascii) : Prop :=
  Forall (λ ch, isspace ch = false) t.

(** The three replacements, character by character. *)
Definition clean_char (ch : Ascii.ascii) : Ascii.ascii :=
  if bool_decide (ch = comma) || bool_decide (ch = newline)
     || bool_decide (ch = carriage_return)
  then space else ch.

(** [", ".join(DEFAULT_IDX_TICKERS)] is what the form shows at first. *)
Definition DEFAULT_IDX_TICKERS : list string :=
  [ "BBCA.JK"; "TLKM.JK"; "ASII.JK"; "ACES.JK"; "UNVR.JK"; "GOTO.JK"; "ADRO.JK";
    "BUMI.JK"; "ANTM.JK"; "MDKA.JK"; "BRIS.JK"; "ARTO.JK"; "BMRI.JK"; "BBNI.JK";
    "BBRI.JK"; "UNTR.JK"; "ITMG.JK"; "INDF.JK"; "ICBP.JK"; "SRIL.JK"; "CPIN.JK";
    "EXCL.JK"; "FREN.JK"; "HMSP.JK"; "INCO.JK"; "KLBF.JK"; "PGAS.JK"; "PTBA.JK";
    "SMGR.JK"; "TINS.JK"; "SMMA.JK"; "TPIA.JK" ].

(** [float(form_data.get(key, default))] and [int(form_data.get(key,
    default))].  [py_float] and [py_int] stand for Python's conversions of
    text: they give the number, or the message of the ValueError. *)
Definition float_field (py_float : string → string + fval)
    (form_data : gmap string string) (key : string) (dflt : fval) : Exc fval :=
  match form_data !! key with
  | None => ret dflt
  | Some s => match py_float s with
              | inl msg => raise (ValueError msg)
              | inr x => ret x
              end
  end.

Definition int_field (py_int : string → string + Z)
    (form_data : gmap string string) (key : string) (dflt : Z) : Exc Z :=
  match form_data !! key with
  | None => ret dflt
  | Some s => match py_int s with
              | inl msg => raise (ValueError msg)
              | inr x => ret x
              end
  end.

(** The dictionary [criteria_params] of the [try] block, which is also the
    dictionary [default_criteria] of both handlers. *)
Definition read_criteria (py_float : string → string + fval)
    (py_int : string → string + Z) (form_data : gmap string string)
    : Exc CriteriaParams :=
  let! open_ratio :=
    float_field py_float form_data "open_ratio"
      (Fin (Qc_of_Z 1015 / Qc_of_Z 1000)) in
  let! min_price := int_field py_int form_data "min_price" 50 in
  let! min_volume_shares :=
    int_field py_int form_data "min_volume_shares" 5000000 in
  ret (mkCriteriaParams open_ratio min_price min_volume_shares).

(** The three windows read from the form. *)
Definition read_indicators (py_int : string → string + Z)
    (form_data : gmap string string) : Exc (Z * Z * Z) :=
  let! sma_short := int_field py_int form_data "sma_short" 20 in
  let! sma_long := int_field py_int form_data "sma_long" 60 in
  let! rsi_period := int_field py_int form_data "rsi_period" 14 in
  ret (sma_short, sma_long, rsi_period).

(** What the template is rendered with, form fields included. *)
Record Rendered : Type := mkRendered {
  input_tickers_str : string;
  shown_criteria : CriteriaParams;
  shown_indicators : Z * Z * Z;     (* sma_short, sma_long, rsi_period *)
  shown_period : string;
  shown_page : Page;
}.

(** The ticker text that a handler puts back in the form. *)
Definition handler_tickers_str (selected_tickers_list : list string) : string :=
  match selected_tickers_list with
  | [] => String.concat ", " DEFAULT_IDX_TICKERS
  | _ => String.concat ", " selected_tickers_list
  end.

(** The view function of the route, from the raw form.  It reads the form,
    then goes on as [analyze] does with the values read.  A ValueError
    raised while the form is read is handled like the others: the handler
    reads the criteria from the form once more, outside of any [try], and
    renders the error page with the windows 20, 60 and 14. *)
Definition analyze_route
    (yf_download : gset string → string → Exc Frame)
    (sort_values : list ScreeningResult → list ScreeningResult)
    (py_float : string → string + fval) (py_int : string → string + Z)
    (form_data : gmap string string) : Exc Rendered :=
  let selected_tickers_list :=
    selected_tickers (default "" (form_data !! "tickers_list")) in
  let period := default "6mo" (form_data !! "period") in
  let handler (message : Message) : Exc Rendered :=
    let! default_criteria := read_criteria py_float py_int form_data in
    ret (mkRendered (handler_tickers_str selected_tickers_list)
           default_criteria (20, 60, 14)%Z period (ErrorPage message)) in
  let read : Exc (CriteriaParams * (Z * Z * Z)) :=
    let! criteria_params := read_criteria py_float py_int form_data in
    let! windows := read_indicators py_int form_data in
    ret (criteria_params, windows) in
  match read with
  | inl (ValueError msg) => handler (Plain msg)
  | inl e => handler (Unexpected e)
  | inr (criteria_params, (sma_short, sma_long, rsi_period)) =>
      let form :=
        mkForm selected_tickers_list period (open_ratio criteria_params)
          (min_price criteria_params) (min_volume_shares criteria_params)
          sma_short sma_long rsi_period in
      match analyze yf_download sort_values form with
      | ResultsPage results chart_jsons ihsg_status ihsg_change =>
          ret (mkRendered (String.concat ", " selected_tickers_list)
                 criteria_params (sma_short, sma_long, rsi_period) period
                 (ResultsPage results chart_jsons ihsg_status ihsg_change))
      | ErrorPage message => handler message
      end
  end.

(** Conversions that know a few texts, for the examples. *)
Definition sample_py_int (s : string) : string + Z :=
  if decide (s = "60") then inr 60%Z
  else if decide (s = "3") then inr 3%Z
  else inl ("invalid literal for int() with base 10: " +:+ s).
Definition sample_py_float (s : string) : string + fval :=
  if decide (s = "1.015") then inr (Fin (Qc_of_Z 1015 / Qc_of_Z 1000))
  else inl ("could not convert string to float: " +:+ s).

(** * Properties *)

(** ** Floating-point values *)



Lemma fdiv_NaN_l y : fdiv NaN y = NaN.
Proof. by destruct y. Qed.



(** ** Rolling means *)





Lemma length_rolled w s : length (rolled w s) = length s.
Proof. unfold rolled. by rewrite length_fmap, length_seq. Qed.


Lemma rolling_mean_valid w s : (0 ≤ w)%Z → rolling_mean w s = ret (rolled w s).
Proof. intros Hw. unfold rolling_mean. by rewrite decide_False by lia. Qed.

Lemma rolling_mean_invalid w s :
  (w < 0)%Z → ∃ e, rolling_mean w s = raise e.
Proof. intros Hw. unfold rolling_mean. rewrite decide_True by done. eauto. Qed.

(** ** Series *)

Lemma length_shift n s : length (shift n s) = length s.
Proof.
  unfold shift. case_decide.
  - rewrite length_take, length_app, length_replicate. lia.
  - rewrite length_app, length_drop, length_replicate. lia.
Qed.

Lemma shift_lookup_fill n s i :
  (i < length s)%nat → (Z.of_nat i < n)%Z → shift n s !! i = Some NaN.
Proof.
  intros Hi Hn. unfold shift. rewrite decide_True by lia.
  rewrite lookup_take, decide_True by done.
  rewrite lookup_app_l by (rewrite length_replicate; lia).
  apply lookup_replicate_2. lia.
Qed.


Lemma length_hist_return n close : length (hist_return n close) = length close.
Proof.
  unfold hist_return, sdiv.
  rewrite length_fmap, length_zip_with, length_shift. lia.
Qed.

Lemma hist_return_lookup n close i x y :
  close !! i = Some x → shift n close !! i = Some y →
  hist_return n close !! i = Some (fmul (fsub (fdiv x y) (Fin 1)) (of_Z 100)).
Proof.
  intros Hx Hy. unfold hist_return, sdiv.
  by rewrite list_lookup_fmap, lookup_zip_with, Hx, Hy.
Qed.

(** ** Frames *)

Lemma getitem_length df label s : getitem df label = ret s → length s = df_len df.
Proof.
  unfold getitem. destruct (df_cols df !! label); [|done].
  intros [= <-]. apply length_resize.
Qed.

Lemma getitem_setitem_ne df l s l' :
  l ≠ l' → getitem (setitem df l s) l' = getitem df l'.
Proof.
  intros Hne. unfold getitem, setitem; simpl. by rewrite lookup_insert_ne.
Qed.

Lemma getitem_setitem_eq df l s :
  length s = df_len df → getitem (setitem df l s) l = ret s.
Proof.
  intros Hlen. unfold getitem, setitem; simpl.
  rewrite lookup_insert_eq. f_equal. by apply resize_all_alt.
Qed.


(** ** calculate_indicators *)

Local Ltac exc_simpl := cbn [bind ret raise fst snd].


(** Splits a run at each place where it can raise. *)
Local Ltac run_cases :=
  repeat match goal with
  | |- context [getitem ?d ?l] => destruct (getitem d l) eqn:?; exc_simpl
  | |- context [rolling_mean ?w ?s] => destruct (rolling_mean w s) eqn:?; exc_simpl
  end.

(** With the two columns it reads and windows that [rolling] accepts, the
    run completes and leaves the five columns. *)
Lemma calculate_indicators_complete p df close volume :
  getitem df "Close" = ret close → getitem df "Volume" = ret volume →
  valid_windows p →
  calculate_indicators p df = (with_indicators p df close volume, inr ()).
Proof.
  intros HC HV (Hs & Hl & Hr & Hv).
  unfold calculate_indicators, seq_stmt, assign, with_indicators, rsi_series.
  rewrite HC. exc_simpl.
  rewrite !getitem_setitem_ne by done. rewrite HV. exc_simpl.
  rewrite (rolling_mean_valid _ _ Hv). exc_simpl.
  rewrite !getitem_setitem_ne by done. rewrite HC. exc_simpl.
  rewrite (rolling_mean_valid _ _ Hs). exc_simpl.
  rewrite !getitem_setitem_ne by done. rewrite HC. exc_simpl.
  rewrite (rolling_mean_valid _ _ Hl). exc_simpl.
  rewrite !getitem_setitem_ne by done. rewrite HC. exc_simpl.
  rewrite !(rolling_mean_valid _ _ Hr). exc_simpl. done.
Qed.


Lemma not_indicator_label l :
  l ∉ indicator_labels →
  "Hist_Return_30D" ≠ l ∧ "Avg_Volume" ≠ l ∧ "SMA_Short" ≠ l ∧
  "SMA_Long" ≠ l ∧ "RSI" ≠ l.
Proof.
  intros Hl. repeat split; intros <-; apply Hl; unfold indicator_labels;
    set_solver.
Qed.

(** Whatever the run does, it keeps the index and every column other than
    the five it assigns. *)
Lemma calculate_indicators_frame p df :
  df_len (calculate_indicators p df).1 = df_len df ∧
  ∀ l, l ∉ indicator_labels →
       df_cols (calculate_indicators p df).1 !! l = df_cols df !! l.
Proof.
  unfold calculate_indicators, seq_stmt, assign, rsi_series.
  run_cases;
    (split; [done|]; intros lbl (?&?&?&?&?)%not_indicator_label; simpl;
     by rewrite ?lookup_insert_ne by done).
Qed.


Lemma with_indicators_getitem p df close volume :
  length close = df_len df →
  getitem (with_indicators p df close volume) "SMA_Short"
    = ret (rolled (sma_short p) close) ∧
  getitem (with_indicators p df close volume) "SMA_Long"
    = ret (rolled (sma_long p) close) ∧
  getitem (with_indicators p df close volume) "RSI"
    = ret (rsi_column (rsi_period p) close).
Proof.
  intros Hlen. unfold with_indicators. repeat split.
  - rewrite !getitem_setitem_ne by done.
    apply getitem_setitem_eq. by rewrite length_rolled.
  - rewrite !getitem_setitem_ne by done.
    apply getitem_setitem_eq. by rewrite length_rolled.
  - apply getitem_setitem_eq. simpl.
    unfold rsi_column, sdiv. rewrite length_fmap, length_zip_with, !length_rolled.
    unfold gains, losses, where_, diff, ssub.
    rewrite !length_fmap, !length_zip_with, length_shift. lia.
Qed.

(** ** The trailing return *)




(** ** The moving averages *)




(** ** The oscillator *)



Lemma fdiv_zero_zero : fdiv (Fin 0) (Fin 0) = NaN.
Proof. done. Qed.



(** ** Purity *)



(** ** Rows *)

Lemma row_getitem_row_at df label s i :
  getitem df label = ret s → row_getitem (row_at df i) label = ret (s !!! i).
Proof.
  unfold getitem, row_getitem, row_at. rewrite lookup_fmap.
  destruct (df_cols df !! label); [|done]. by intros [= <-].
Qed.

Lemma row_get_row_at df label s i dflt :
  getitem df label = ret s → row_get (row_at df i) label dflt = s !!! i.
Proof.
  unfold getitem, row_get, row_at. rewrite lookup_fmap.
  destruct (df_cols df !! label); [|done]. by intros [= <-].
Qed.

Lemma with_indicators_len p df close volume :
  df_len (with_indicators p df close volume) = df_len df.
Proof. done. Qed.

Lemma with_indicators_keeps p df close volume l :
  l ∉ indicator_labels →
  getitem (with_indicators p df close volume) l = getitem df l.
Proof.
  intros (?&?&?&?&?)%not_indicator_label. unfold with_indicators.
  by rewrite !getitem_setitem_ne.
Qed.

Lemma with_indicators_getitem_volume p df close volume :
  length close = df_len df → length volume = df_len df →
  getitem (with_indicators p df close volume) "Hist_Return_30D"
    = ret (hist_return (hist_days p) close) ∧
  getitem (with_indicators p df close volume) "Avg_Volume"
    = ret (rolled (vol_period p) volume).
Proof.
  intros Hc Hv. unfold with_indicators. split.
  - rewrite !getitem_setitem_ne by done.
    apply getitem_setitem_eq. by rewrite length_hist_return.
  - rewrite !getitem_setitem_ne by done.
    apply getitem_setitem_eq. by rewrite length_rolled.
Qed.

(** ** The hard filters *)

(** For a ticker whose frame has the columns read and at least one bar, the
    body of the loop reads the latest bar and decides by the three filters. *)
Lemma examine_ticker_decides full c p ticker df0 open close volume :
  extract_ticker full ticker = ret (Some df0) →
  getitem df0 "Open" = ret open → getitem df0 "Close" = ret close →
  getitem df0 "Volume" = ret volume →
  valid_windows p → (0 < df_len df0)%nat →
  let n := df_len df0 in
  let today_open := open !!! (n - 1)%nat in
  let today_close := close !!! (n - 1)%nat in
  let today_volume := volume !!! (n - 1)%nat in
  let prev_close := close !!! prior_position n in
  examine_ticker full c p ticker =
    ret (if fgt today_open (fmul (open_ratio c) prev_close)
            && fge today_close (of_Z (min_price c))
            && fgt today_volume (of_Z (min_volume_shares c))
         then Some (mkScreeningResult ticker today_close
                      (hist_return (hist_days p) close !!! (n - 1)%nat)
                      (fdiv today_open prev_close) today_open prev_close
                      today_volume
                      (rolled (vol_period p) volume !!! (n - 1)%nat)
                      (rsi_column (rsi_period p) close !!! (n - 1)%nat),
                    with_indicators p df0 close volume)
         else None).
Proof.
  intros Hex HO HC HV Hp Hn. cbv zeta.
  pose proof (getitem_length _ _ _ HC) as HlenC.
  pose proof (getitem_length _ _ _ HV) as HlenV.
  destruct (with_indicators_getitem p df0 close volume HlenC) as (_ & _ & HR).
  destruct (with_indicators_getitem_volume p df0 close volume HlenC HlenV)
    as (HH & HA).
  assert (∀ l s, l ∈ ohlcv_labels → getitem df0 l = ret s →
            getitem (with_indicators p df0 close volume) l = ret s) as Hkeep.
  { intros l s Hl <-. apply with_indicators_keeps.
    assert (Forall (λ l, l ∉ indicator_labels) ohlcv_labels) as Hall.
    { apply (bool_decide_unpack _). by vm_compute. }
    by apply (proj1 (Forall_forall _ _) Hall). }
  assert ("Open" ∈ ohlcv_labels ∧ "Close" ∈ ohlcv_labels ∧
          "Volume" ∈ ohlcv_labels) as (HinO & HinC & HinV).
  { split_and!; apply (bool_decide_unpack _); by vm_compute. }
  unfold examine_ticker. rewrite Hex. exc_simpl.
  rewrite (calculate_indicators_complete p df0 close volume HC HV Hp).
  unfold iloc_neg. rewrite with_indicators_len.
  rewrite decide_False by lia. exc_simpl.
  assert ((if decide (1 < df_len df0)%nat
           then if decide (df_len df0 < 2)%nat then raise IndexError
                else ret (row_at (with_indicators p df0 close volume)
                                 (df_len df0 - 2))
           else ret (row_at (with_indicators p df0 close volume)
                            (df_len df0 - 1)))
          = ret (row_at (with_indicators p df0 close volume)
                        (prior_position (df_len df0)))) as ->.
  { unfold prior_position. case_decide; [|done]. by rewrite decide_False by lia. }
  exc_simpl.
  pose proof (Hkeep _ _ HinO HO) as HO'.
  pose proof (Hkeep _ _ HinC HC) as HC'.
  pose proof (Hkeep _ _ HinV HV) as HV'.
  rewrite (row_getitem_row_at _ _ _ _ HC'). exc_simpl.
  rewrite (row_getitem_row_at _ _ _ _ HC'). exc_simpl.
  rewrite (row_getitem_row_at _ _ _ _ HO'). exc_simpl.
  rewrite (row_getitem_row_at _ _ _ _ HV'). exc_simpl.
  rewrite (row_get_row_at _ "Avg_Volume" _ _ _ HA).
  rewrite (row_get_row_at _ "Hist_Return_30D" _ _ _ HH).
  rewrite (row_get_row_at _ "RSI" _ _ _ HR).
  unfold open_ratio_ok, min_price_ok, min_volume_ok. by case_match.
Qed.




(** ** Raising the minimum price *)

Lemma min_price_ok_mono c lo hi x :
  (lo ≤ hi)%Z →
  min_price_ok (with_min_price c hi) x = true →
  min_price_ok (with_min_price c lo) x = true.
Proof.
  intros Hle. unfold min_price_ok, fge, fle, of_Z.
  cbn [with_min_price min_price].
  destruct x as [a| | |]; try done.
  rewrite !bool_decide_eq_true. intros Hhi.
  apply Qcle_trans with (Qc_of_Z hi); [|exact Hhi].
  exact (proj1 (Z2Qc_inj_le lo hi) Hle).
Qed.

(** With a lower minimum price the body of the loop raises the same
    exception, or accepts the same record, or accepts a record that the
    higher minimum refused. *)
Lemma examine_ticker_min_price full c p t lo hi :
  (lo ≤ hi)%Z →
  match examine_ticker full (with_min_price c hi) p t with
  | inl e => examine_ticker full (with_min_price c lo) p t = inl e
  | inr (Some x) => examine_ticker full (with_min_price c lo) p t = inr (Some x)
  | inr None => ∃ o, examine_ticker full (with_min_price c lo) p t = inr o
  end.
Proof.
  intros Hle. unfold examine_ticker.
  destruct (extract_ticker full t) as [e|[df0|]]; exc_simpl; [done| |by eexists].
  destruct (calculate_indicators p df0) as [df [e|[]]]; [done|].
  destruct (iloc_neg df 1) as [e|latest]; exc_simpl; [done|].
  destruct (if decide (1 < df_len df)%nat then iloc_neg df 2 else ret latest)
    as [e|yesterday]; exc_simpl; [done|].
  destruct (row_getitem latest "Close") as [e|cc]; exc_simpl; [done|].
  destruct (row_getitem yesterday "Close") as [e|yc]; exc_simpl; [done|].
  destruct (row_getitem latest "Open") as [e|co]; exc_simpl; [done|].
  destruct (row_getitem latest "Volume") as [e|cv]; exc_simpl; [done|].
  change (open_ratio_ok (with_min_price c hi)) with (open_ratio_ok c).
  change (open_ratio_ok (with_min_price c lo)) with (open_ratio_ok c).
  change (min_volume_ok (with_min_price c hi)) with (min_volume_ok c).
  change (min_volume_ok (with_min_price c lo)) with (min_volume_ok c).
  destruct (open_ratio_ok c co yc); cbn [andb]; [|by eexists].
  destruct (min_price_ok (with_min_price c hi) cc) eqn:Hhi; cbn [andb].
  - rewrite (min_price_ok_mono c lo hi cc Hle Hhi). cbn [andb].
    destruct (min_volume_ok c cv); [done|by eexists].
  - cbn [ret]. destruct (_ && _); by eexists.
Qed.

Lemma process_ticker_min_price full c p lo hi t st_hi st_lo :
  (lo ≤ hi)%Z → st_hi.1 `sublist_of` st_lo.1 →
  (process_ticker full (with_min_price c hi) p st_hi t).1
    `sublist_of` (process_ticker full (with_min_price c lo) p st_lo t).1.
Proof.
  intros Hle Hsub. destruct st_hi as [r_hi ch_hi], st_lo as [r_lo ch_lo].
  simpl in Hsub. unfold process_ticker.
  pose proof (examine_ticker_min_price full c p t lo hi Hle) as Hex.
  destruct (examine_ticker full (with_min_price c hi) p t) as [e|[[r d]|]].
  - by rewrite Hex.
  - rewrite Hex.
    destruct (create_plotly_json d t p); simpl; by apply sublist_app.
  - destruct Hex as [o ->]. destruct o as [[r d]|]; [|done].
    destruct (create_plotly_json d t p); simpl; by apply sublist_inserts_r.
Qed.

Lemma screen_loop_min_price full c p lo hi tickers st_hi st_lo :
  (lo ≤ hi)%Z → st_hi.1 `sublist_of` st_lo.1 →
  (foldl (process_ticker full (with_min_price c hi) p) st_hi tickers).1
    `sublist_of`
  (foldl (process_ticker full (with_min_price c lo) p) st_lo tickers).1.
Proof.
  intros Hle. revert st_hi st_lo.
  induction tickers as [|t tickers IH]; intros st_hi st_lo Hsub; [done|].
  simpl. apply IH. by apply process_ticker_min_price.
Qed.

(** C7. Screening is monotonic in [min_price]: on the same table, benchmark,
    other criteria and windows, the run with the higher minimum raises the
    same exception as the run with the lower one, or both return and the
    records of the first are among the records of the second, in the same
    order; so the first has no more records, and every ticker it accepts is
    accepted by the second. *)
Theorem min_price_monotone full ihsg c p lo hi :
  (lo ≤ hi)%Z →
  match screen_and_extract full ihsg (with_min_price c hi) p,
        screen_and_extract full ihsg (with_min_price c lo) p with
  | inr (res_hi, _, _, _), inr (res_lo, _, _, _) =>
      res_hi `sublist_of` res_lo ∧
      (length res_hi ≤ length res_lo)%nat ∧
      (∀ t, t ∈ Ticker <$> res_hi → t ∈ Ticker <$> res_lo)
  | inl e_hi, inl e_lo => e_hi = e_lo
  | _, _ => False
  end.
Proof.
  intros Hle. unfold screen_and_extract.
  destruct (tickers_available full) as [available|]; cbn [ret].
  - destruct (ihsg_analysis ihsg) as [e|[status change]]; exc_simpl; [done|].
    pose proof (screen_loop_min_price full c p lo hi
                  (filter (λ t, t ≠ IHSG_TICKER) available) ([], ∅) ([], ∅)
                  Hle (reflexivity _)) as Hsub.
    destruct (foldl (process_ticker full (with_min_price c hi) p) _ _)
      as [res_hi ch_hi].
    destruct (foldl (process_ticker full (with_min_price c lo) p) _ _)
      as [res_lo ch_lo].
    simpl in Hsub. cbn [ret]. split_and!.
    + done.
    + by apply sublist_length.
    + intros t Ht. eapply elem_of_sublist; [exact Ht|]. by apply fmap_sublist.
  - split_and!; [done|done|]. by intros t.
Qed.

Lemma min_price_monotone_witness :
  match screen_and_extract
          (MultiFrame [("BBCA.JK", rally_frame); ("TLKM.JK", thin_frame)])
          (Some one_bar_benchmark) (with_min_price default_criteria 150)
          small_params,
        screen_and_extract
          (MultiFrame [("BBCA.JK", rally_frame); ("TLKM.JK", thin_frame)])
          (Some one_bar_benchmark) (with_min_price default_criteria 50)
          small_params with
  | inr (res_hi, _, _, _), inr (res_lo, _, _, _) =>
      res_hi `sublist_of` res_lo ∧
      (length res_hi ≤ length res_lo)%nat ∧
      (∀ t, t ∈ Ticker <$> res_hi → t ∈ Ticker <$> res_lo)
  | inl e_hi, inl e_lo => e_hi = e_lo
  | _, _ => False
  end.
Proof. apply min_price_monotone. lia. Defined.

(** The two runs of the witness differ: the higher minimum refuses the
    ticker that the lower one accepts. *)
Example min_price_runs :
  (∃ ch st chg,
     screen_and_extract
       (MultiFrame [("BBCA.JK", rally_frame); ("TLKM.JK", thin_frame)])
       (Some one_bar_benchmark) (with_min_price default_criteria 150)
       small_params = ret ([], ch, st, chg)) ∧
  (∃ r ch st chg,
     screen_and_extract
       (MultiFrame [("BBCA.JK", rally_frame); ("TLKM.JK", thin_frame)])
       (Some one_bar_benchmark) (with_min_price default_criteria 50)
       small_params = ret ([r], ch, st, chg) ∧ Ticker r = "BBCA.JK").
Proof.
  split.
  - eexists _, _, _. vm_compute. reflexivity.
  - eexists _, _, _, _. split; [vm_compute; reflexivity|reflexivity].
Qed.

(** ** The benchmark *)



Lemma ihsg_analysis_absent ihsg :
  ihsg = None ∨ (∃ d, ihsg = Some d ∧ df_empty d = true) →
  ihsg_analysis ihsg = ret (StatusNA, of_Z 0).
Proof.
  intros [->|(d & -> & Hd)]; [done|].
  unfold ihsg_analysis. by rewrite Hd.
Qed.





(** ** A failure while charting *)

(** An exception raised before the record is appended leaves the state of
    the loop as it was. *)
Lemma process_ticker_skips full c p st ticker e :
  examine_ticker full c p ticker = raise e →
  process_ticker full c p st ticker = st.
Proof. intros Hex. destruct st. unfold process_ticker. by rewrite Hex. Qed.

(** C5 fails on a ticker whose frame lacks the column of the highs.  The
    filters pass and the record is appended; [create_plotly_json] then
    raises, the exception is caught, and the record stays in the results
    without a chart.  Without the ticker the results are empty. *)
Theorem chart_failure_keeps_record :
  match examine_ticker (MultiFrame [("BBCA.JK", no_high_frame)])
          default_criteria small_params "BBCA.JK" with
  | inr (Some (r, stock_df)) =>
      Ticker r = "BBCA.JK" ∧
      create_plotly_json stock_df "BBCA.JK" small_params = raise (KeyError "High")
  | _ => False
  end ∧
  match screen_and_extract (MultiFrame [("BBCA.JK", no_high_frame)]) None
          default_criteria small_params with
  | inr (results, chart_jsons, _, _) =>
      Ticker <$> results = ["BBCA.JK"] ∧ chart_jsons = ∅
  | inl _ => False
  end ∧
  screen_and_extract (MultiFrame []) None default_criteria small_params
    = ret ([], ∅, StatusNA, of_Z 0).
Proof. split_and!; [by vm_compute|by vm_compute|reflexivity]. Qed.

(** ** Ranking *)

#[global] Instance row_before_total : Total row_before.
Proof.
  intros x y. unfold row_before, key_before, fge, fle.
  destruct (Gain_30D x) as [a| | |], (Gain_30D y) as [b| | |]; simpl; auto.
  rewrite !bool_decide_eq_true. destruct (Qc_le_total a b); auto.
Qed.

#[global] Instance row_before_trans : Transitive row_before.
Proof.
  intros x y z. unfold row_before, key_before, fge, fle.
  destruct (Gain_30D x) as [a| | |], (Gain_30D y) as [b| | |],
           (Gain_30D z) as [c| | |]; simpl; try done.
  rewrite !bool_decide_eq_true. intros Hba Hcb. by apply Qcle_trans with b.
Qed.

Lemma stable_sort_contract : sort_values_contract stable_sort.
Proof.
  intros rows. unfold stable_sort. split.
  - apply merge_sort_Permutation.
  - apply (StronglySorted_merge_sort _).
Qed.









(** ** An empty response *)

(** A frame without rows yields no record: the run of the indicators raises
    or the read of the latest bar does. *)
Lemma examine_ticker_no_row full c p t :
  (∀ df, extract_ticker full t = ret (Some df) → df_len df = 0%nat) →
  match examine_ticker full c p t with
  | inr (Some _) => False
  | _ => True
  end.
Proof.
  intros Hlen. unfold examine_ticker.
  destruct (extract_ticker full t) as [e|[df0|]]; exc_simpl; [done| |done].
  pose proof (proj1 (calculate_indicators_frame p df0)) as Hkeep.
  destruct (calculate_indicators p df0) as [df [e|[]]]; [done|].
  simpl in Hkeep. unfold iloc_neg at 1.
  rewrite decide_True; [done|]. rewrite Hkeep, (Hlen df0 eq_refl). lia.
Qed.

Lemma screen_loop_no_row full c p tickers st :
  (∀ t df, extract_ticker full t = ret (Some df) → df_len df = 0%nat) →
  foldl (process_ticker full c p) st tickers = st.
Proof.
  intros Hlen. induction tickers as [|t tickers IH]; [done|].
  simpl. rewrite <-IH at 2. f_equal.
  destruct st as [results charts]. unfold process_ticker.
  pose proof (examine_ticker_no_row full c p t (Hlen t)) as Hex.
  by destruct (examine_ticker full c p t) as [e|[[r d]|]].
Qed.

Lemma select_ticker_elem groups t df :
  select_ticker groups t = ret df → (t, df) ∈ groups.
Proof.
  unfold select_ticker.
  destruct (list_to_map groups !! t) as [d|] eqn:Hd; [|done].
  intros [= <-]. by apply elem_of_list_to_map_2 in Hd.
Qed.

(** What [load_historical_data] hands over after a response without bars. *)
Lemma load_historical_data_empty yf tickers period :
  (∀ ts per, wholly_empty (yf ts per)) →
  let '(full, ihsg) := load_historical_data yf tickers period in
  (tickers_available full = None ∨
   (∃ groups, full = MultiFrame groups ∧
              Forall (λ g, df_len g.2 = 0%nat) groups)) ∧
  (ihsg = None ∨ ∃ d, ihsg = Some d ∧ df_empty d = true).
Proof.
  intros Hempty. unfold load_historical_data.
  specialize (Hempty (list_to_set (tickers ++ [IHSG_TICKER])) period).
  destruct (yf _ period) as [e|[groups|name c0 df]]; exc_simpl.
  - split; [by left|right]. by exists empty_df.
  - simpl in Hempty.
    destruct (loc_level1 groups _) as [e|stock] eqn:Hloc; exc_simpl.
    { split; [by left|right]. by exists empty_df. }
    assert (Forall (λ g, df_len g.2 = 0%nat) stock) as Hstock.
    { unfold loc_level1 in Hloc. destruct (filter _ _); [|done].
      injection Hloc as <-. rewrite Forall_forall in *.
      intros g [_ Hg]%list_elem_of_filter. auto. }
    case_bool_decide; exc_simpl.
    + destruct (select_ticker groups IHSG_TICKER) as [e|d] eqn:Hsel; exc_simpl.
      { split; [by left|right]. by exists empty_df. }
      split; [right; by exists stock|right].
      exists d. split; [done|].
      apply select_ticker_elem in Hsel.
      rewrite Forall_forall in Hempty. specialize (Hempty _ Hsel).
      simpl in Hempty. unfold df_empty. by rewrite Hempty.
    + split; [right; by exists stock|by left].
  - simpl in Hempty. split; [left|by left]. simpl. by rewrite Hempty.
Qed.

(** The message after a response without bars is that of the case where
    bars came and no ticker passed the filters. *)
Lemma empty_response_same_message :
  analyze download_nothing stable_sort thin_form
    = ErrorPage (Plain no_result_message) ∧
  analyze download_thin stable_sort thin_form
    = ErrorPage (Plain no_result_message).
Proof. split; by vm_compute. Qed.

(** C4, as the program has it.  When the response of the data provider is
    wholly empty, for a form that names at least one ticker, [analyze]
    renders the error page with the message that no stock passed the
    criteria; no ranked result is rendered and no exception leaves
    [analyze].  The same page is rendered whenever the screening returns
    without a record, so the two cases are not told apart. *)
Theorem empty_response_page yf sort_values form :
  form_tickers_list form ≠ [] →
  ((∀ ts per, wholly_empty (yf ts per)) →
     analyze yf sort_values form = ErrorPage (Plain no_result_message)) ∧
  (∀ full ihsg ch st chg,
     load_historical_data yf
       (elements (list_to_set (form_tickers_list form ++ [IHSG_TICKER])
                  : gset string))
       (form_period form) = (full, ihsg) →
     screen_and_extract full ihsg (criteria_of_form form)
       (indicators_of_form form) = ret ([], ch, st, chg) →
     analyze yf sort_values form = ErrorPage (Plain no_result_message)).
Proof.
  intros Hform. split.
  - intros Hempty. unfold analyze.
    rewrite bool_decide_eq_false_2 by done.
    pose proof (load_historical_data_empty yf
      (elements (list_to_set (form_tickers_list form ++ [IHSG_TICKER])
                 : gset string)) (form_period form) Hempty) as Hload.
    destruct (load_historical_data _ _ _) as [full ihsg].
    destruct Hload as [Hfull Hihsg].
    pose proof (ihsg_analysis_absent ihsg Hihsg) as Hstatus.
    unfold screen_and_extract.
    destruct Hfull as [->|(groups & -> & Hrows)]; [done|].
    cbn [tickers_available]. rewrite Hstatus. exc_simpl.
    rewrite screen_loop_no_row; [done|].
    intros t df. cbn [extract_ticker].
    destruct (select_ticker groups t) as [e|d] eqn:Hsel; exc_simpl; [done|].
    intros [= <-]. apply select_ticker_elem in Hsel.
    rewrite Forall_forall in Hrows. by apply (Hrows _ Hsel).
  - intros full ihsg ch st chg Hload Hscreen. unfold analyze.
    rewrite bool_decide_eq_false_2 by done.
    rewrite Hload, Hscreen. done.
Qed.

Lemma empty_response_page_witness :
  analyze download_nothing stable_sort thin_form
    = ErrorPage (Plain no_result_message).
Proof.
  destruct (empty_response_page download_nothing stable_sort thin_form)
    as [Hempty _].
  - done.
  - apply Hempty. intros ts per. reflexivity.
Defined.


(** ** How a run of calculate_indicators ends *)

Lemma rolling_mean_inr w s x :
  rolling_mean w s = inr x → (0 ≤ w)%Z ∧ x = rolled w s.
Proof.
  unfold rolling_mean. case_decide; [done|]. intros [= <-]. split; [lia|done].
Qed.

(** A run that completes had the two columns it reads and windows that
    [rolling] accepts, and leaves the five indicator columns. *)
Lemma calculate_indicators_inv p df d :
  calculate_indicators p df = (d, inr ()) →
  ∃ close volume,
    getitem df "Close" = ret close ∧ getitem df "Volume" = ret volume ∧
    valid_windows p ∧ d = with_indicators p df close volume.
Proof.
  unfold calculate_indicators, seq_stmt, assign, rsi_series.
  destruct (getitem df "Close") as [e|close] eqn:HC; exc_simpl; [done|].
  rewrite !getitem_setitem_ne by done.
  destruct (getitem df "Volume") as [e|volume] eqn:HV; exc_simpl; [done|].
  destruct (rolling_mean (vol_period p) volume) eqn:Hv; exc_simpl; [done|].
  rewrite !getitem_setitem_ne by done. rewrite HC; exc_simpl.
  destruct (rolling_mean (sma_short p) close) eqn:Hs; exc_simpl; [done|].
  rewrite !getitem_setitem_ne by done. rewrite HC; exc_simpl.
  destruct (rolling_mean (sma_long p) close) eqn:Hl; exc_simpl; [done|].
  rewrite !getitem_setitem_ne by done. rewrite HC; exc_simpl.
  destruct (rolling_mean (rsi_period p) (gains (diff close))) eqn:Hg;
    exc_simpl; [done|].
  destruct (rolling_mean (rsi_period p) (losses (diff close))) eqn:Hlo;
    exc_simpl; [done|].
  apply rolling_mean_inr in Hv as [? ->], Hs as [? ->], Hl as [? ->],
    Hg as [? ->], Hlo as [? ->].
  intros [= <-]. exists close, volume. by repeat split.
Qed.

Lemma getitem_is_Some df l :
  is_Some (df_cols df !! l) ↔ ∃ s, getitem df l = ret s.
Proof.
  unfold getitem. destruct (df_cols df !! l); split.
  - intros _. by eexists.
  - intros _. by eexists.
  - by intros [? ?].
  - by intros [? ?].
Qed.





(** ** The range of the oscillator *)


















(** ** Which tickers can contribute *)

Lemma ohlcv_not_indicator l : l ∈ ohlcv_labels → l ∉ indicator_labels.
Proof.
  assert (Forall (λ l, l ∉ indicator_labels) ohlcv_labels) as Hall.
  { apply (bool_decide_unpack _). by vm_compute. }
  apply (proj1 (Forall_forall _ _) Hall).
Qed.

Lemma row_getitem_inr df i l x :
  row_getitem (row_at df i) l = ret x → is_Some (df_cols df !! l).
Proof.
  unfold row_getitem, row_at. rewrite lookup_fmap.
  by destruct (df_cols df !! l).
Qed.

Lemma with_indicators_cols p df close volume l :
  l ∉ indicator_labels →
  df_cols (with_indicators p df close volume) !! l = df_cols df !! l.
Proof.
  intros (?&?&?&?&?)%not_indicator_label. unfold with_indicators. simpl.
  by rewrite !lookup_insert_ne.
Qed.

(** A ticker whose turn of the loop yields a record had a frame with the
    columns read, at least one bar, and windows that [rolling] accepts. *)
Lemma examine_ticker_inv full c p t r d :
  examine_ticker full c p t = ret (Some (r, d)) →
  ∃ df0 open close volume,
    extract_ticker full t = ret (Some df0) ∧
    getitem df0 "Open" = ret open ∧ getitem df0 "Close" = ret close ∧
    getitem df0 "Volume" = ret volume ∧
    valid_windows p ∧ (0 < df_len df0)%nat.
Proof.
  unfold examine_ticker.
  destruct (extract_ticker full t) as [e|[df0|]]; exc_simpl; [done| |done].
  destruct (calculate_indicators p df0) as [d' [e|[]]] eqn:Hrun; [done|].
  apply calculate_indicators_inv in Hrun as (close & volume & HC & HV & Hp & ->).
  unfold iloc_neg at 1. rewrite with_indicators_len.
  case_decide as Hlen; exc_simpl; [done|].
  destruct (if decide (1 < df_len _)%nat then _ else _) as [e|yesterday];
    exc_simpl; [done|].
  destruct (row_getitem _ "Close") as [e|cc]; exc_simpl; [done|].
  destruct (row_getitem yesterday "Close") as [e|yc]; exc_simpl; [done|].
  destruct (row_getitem _ "Open") as [e|co] eqn:HO; exc_simpl; [done|].
  intros _. apply row_getitem_inr in HO.
  rewrite with_indicators_cols in HO
    by (apply ohlcv_not_indicator, (bool_decide_unpack _); by vm_compute).
  apply getitem_is_Some in HO as [open HO].
  exists df0, open, close, volume. split_and!; try done. lia.
Qed.

Lemma hist_return_total_fill n close i :
  (i < length close)%nat → (Z.of_nat i < n)%Z →
  hist_return n close !!! i = NaN.
Proof.
  intros Hi Hn. apply list_lookup_total_correct.
  destruct (lookup_lt_is_Some_2 close i Hi) as [x Hx].
  rewrite (hist_return_lookup _ _ _ x NaN Hx (shift_lookup_fill _ _ _ Hi Hn)).
  by destruct x.
Qed.

(** What the record and the frame of a contributing ticker are. *)
Lemma examine_ticker_record full c p t r d :
  examine_ticker full c p t = ret (Some (r, d)) →
  ∃ df0 open close volume,
    extract_ticker full t = ret (Some df0) ∧
    getitem df0 "Open" = ret open ∧ getitem df0 "Close" = ret close ∧
    getitem df0 "Volume" = ret volume ∧
    valid_windows p ∧ (0 < df_len df0)%nat ∧
    d = with_indicators p df0 close volume ∧ Ticker r = t ∧
    Gain_30D r = hist_return (hist_days p) close !!! (df_len df0 - 1)%nat.
Proof.
  intros Hex.
  destruct (examine_ticker_inv _ _ _ _ _ _ Hex)
    as (df0 & open & close & volume & Hext & HO & HC & HV & Hp & Hn).
  pose proof (examine_ticker_decides full c p t df0 open close volume
                Hext HO HC HV Hp Hn) as Hd. cbv zeta in Hd.
  rewrite Hd in Hex. destruct (_ && _); [|done].
  injection Hex as <- <-.
  exists df0, open, close, volume. by split_and!.
Qed.

(** One turn of the loop leaves the state as it was, or appends the record
    of the ticker and, when the chart can be made, stores the chart. *)
Lemma process_ticker_step full c p st t :
  process_ticker full c p st t = st ∨
  ∃ r d, examine_ticker full c p t = ret (Some (r, d)) ∧
    ((∃ e, create_plotly_json d t p = raise e ∧
           process_ticker full c p st t = (st.1 ++ [r], st.2)) ∨
     (∃ chart, create_plotly_json d t p = ret chart ∧
           process_ticker full c p st t = (st.1 ++ [r], <[t := chart]> st.2))).
Proof.
  destruct st as [results charts]. unfold process_ticker.
  destruct (examine_ticker full c p t) as [e|[[r d]|]]; [by left| |by left].
  right. exists r, d. split; [done|].
  destruct (create_plotly_json d t p) as [e|chart]; [left|right]; by eexists.
Qed.

(** X6. A ticker contributes a record only if its frame has an Open, a
    Close and a Volume column and at least one bar, and no rolling window is
    negative; the record then carries the ticker's symbol. *)
Theorem record_requires full c p st t r :
  (process_ticker full c p st t).1 = st.1 ++ [r] →
  Ticker r = t ∧
  ∃ df0, extract_ticker full t = ret (Some df0) ∧ (0 < df_len df0)%nat ∧
         is_Some (df_cols df0 !! "Open") ∧ is_Some (df_cols df0 !! "Close") ∧
         is_Some (df_cols df0 !! "Volume") ∧ valid_windows p.
Proof.
  intros Hres.
  destruct (process_ticker_step full c p st t) as [Hsame|(r' & d & Hex & Hstep)].
  { rewrite Hsame in Hres. apply (f_equal length) in Hres.
    rewrite length_app in Hres. simpl in Hres. lia. }
  assert (r' = r) as ->.
  { destruct Hstep as [(e & _ & Heq)|(chart & _ & Heq)]; rewrite Heq in Hres;
      simpl in Hres; by apply app_inj_tail in Hres as [_ ->]. }
  destruct (examine_ticker_record _ _ _ _ _ _ Hex)
    as (df0 & open & close & volume & Hext & HO & HC & HV & Hp & Hn & _ & Ht & _).
  split; [done|]. exists df0.
  split_and!; try done; apply getitem_is_Some; eauto.
Qed.

Lemma record_requires_witness :
  ∃ r, (process_ticker (MultiFrame [("BBCA.JK", rally_frame)])
          default_criteria small_params ([], ∅) "BBCA.JK").1 = [] ++ [r] ∧
       Ticker r = "BBCA.JK".
Proof.
  eexists. split.
  - vm_compute. reflexivity.
  - eapply (record_requires (MultiFrame [("BBCA.JK", rally_frame)])
              default_criteria small_params ([], ∅)).
    vm_compute. reflexivity.
Defined.

(** ** The results and the charts *)

Lemma screen_loop_tickers full c p tickers st :
  ∃ added, Ticker <$> (foldl (process_ticker full c p) st tickers).1
             = (Ticker <$> st.1) ++ added ∧
           added `sublist_of` tickers.
Proof.
  revert st. induction tickers as [|t tickers IH]; intros st; simpl.
  { exists []. by rewrite app_nil_r. }
  destruct (IH (process_ticker full c p st t)) as (added & Heq & Hsub).
  rewrite Heq.
  destruct (process_ticker_step full c p st t) as [->|(r & d & Hex & Hstep)].
  - exists added. split; [done|]. by apply sublist_cons.
  - apply examine_ticker_record in Hex
      as (_ & _ & _ & _ & _ & _ & _ & _ & _ & _ & _ & Ht & _).
    exists (t :: added). split; [|by apply sublist_skip].
    destruct Hstep as [(e & _ & ->)|(chart & _ & ->)]; cbn [fst];
      rewrite fmap_app; cbn [fmap list_fmap]; by rewrite Ht, <-(assoc_L (++)).
Qed.

Lemma tickers_available_NoDup full available :
  tickers_available full = Some available → NoDup available.
Proof.
  destruct full as [groups|name c0 df]; simpl.
  - intros [= <-]. apply NoDup_remove_dups.
  - destruct (negb (df_empty df)); [|done].
    intros [= <-]. case_bool_decide; apply NoDup_singleton.
Qed.

(** What [screen_and_extract] returns comes from the loop over the tickers
    of the table, or is the empty result of the early return. *)
Lemma screen_and_extract_inv full ihsg c p res ch st chg :
  screen_and_extract full ihsg c p = ret (res, ch, st, chg) →
  (tickers_available full = None ∧ res = [] ∧ ch = ∅) ∨
  (∃ available, tickers_available full = Some available ∧
     foldl (process_ticker full c p) ([], ∅)
           (filter (λ t, t ≠ IHSG_TICKER) available) = (res, ch)).
Proof.
  unfold screen_and_extract.
  destruct (tickers_available full) as [available|].
  - destruct (ihsg_analysis ihsg) as [e|[s g]]; exc_simpl; [done|].
    destruct (foldl _ _ _) as [res' ch'] eqn:Hloop. intros [= <- <- _ _].
    right. by exists available.
  - intros [= <- <- _ _]. by left.
Qed.

(** X7. The records follow the tickers of the table: their symbols are
    tickers found in the table, in the order of the table, each at most
    once, and never the benchmark. *)
Theorem results_follow_table full ihsg c p res ch st chg :
  screen_and_extract full ihsg c p = ret (res, ch, st, chg) →
  Ticker <$> res `sublist_of` default [] (tickers_available full) ∧
  NoDup (Ticker <$> res) ∧
  IHSG_TICKER ∉ Ticker <$> res.
Proof.
  intros [(Hav & -> & _)|(available & Hav & Hloop)]%screen_and_extract_inv.
  { rewrite Hav. simpl. split_and!; [done|constructor|by intros ?%elem_of_nil]. }
  rewrite Hav. simpl.
  destruct (screen_loop_tickers full c p
              (filter (λ t, t ≠ IHSG_TICKER) available) ([], ∅))
    as (added & Heq & Hsub).
  rewrite Hloop in Heq. simpl in Heq. rewrite Heq.
  pose proof (tickers_available_NoDup _ _ Hav) as Hnd.
  split_and!.
  - etrans; [exact Hsub|]. apply sublist_filter.
  - eapply sublist_NoDup; [|exact Hsub]. by apply NoDup_filter.
  - intros Hin. eapply elem_of_sublist in Hin; [|exact Hsub].
    by apply list_elem_of_filter in Hin as [? _].
Qed.

Lemma results_follow_table_witness :
  ∃ res ch st chg,
    screen_and_extract
      (MultiFrame [("BBCA.JK", rally_frame); ("TLKM.JK", thin_frame)])
      (Some one_bar_benchmark) default_criteria small_params
      = ret (res, ch, st, chg) ∧
    NoDup (Ticker <$> res) ∧ IHSG_TICKER ∉ Ticker <$> res.
Proof.
  eexists _, _, _, _. split.
  - vm_compute. reflexivity.
  - eapply proj2, (results_follow_table
       (MultiFrame [("BBCA.JK", rally_frame); ("TLKM.JK", thin_frame)])
       (Some one_bar_benchmark) default_criteria small_params).
    vm_compute. reflexivity.
Defined.

(** ** Charts *)

Lemma with_indicators_ohlcv p df close volume l :
  l ∈ ohlcv_labels →
  getitem (with_indicators p df close volume) l = getitem df l.
Proof. intros Hl. by apply with_indicators_keeps, ohlcv_not_indicator. Qed.

Lemma ohlcv_labels_elem :
  "Open" ∈ ohlcv_labels ∧ "High" ∈ ohlcv_labels ∧ "Low" ∈ ohlcv_labels ∧
  "Close" ∈ ohlcv_labels ∧ "Volume" ∈ ohlcv_labels.
Proof. split_and!; apply (bool_decide_unpack _); by vm_compute. Qed.

(** With the five columns of the data provider the chart is made from the
    frame that a complete run leaves. *)
Lemma create_plotly_json_complete p df o h l close volume t :
  getitem df "Open" = ret o → getitem df "High" = ret h →
  getitem df "Low" = ret l → getitem df "Close" = ret close →
  getitem df "Volume" = ret volume →
  create_plotly_json (with_indicators p df close volume) t p
    = ret (mkChart t o h l close
             (rolled (sma_short p) close) (sma_short p)
             (rolled (sma_long p) close) (sma_long p)
             volume (rsi_column (rsi_period p) close)).
Proof.
  intros HO HH HL HC HV.
  pose proof (getitem_length _ _ _ HC) as HlenC.
  destruct (with_indicators_getitem p df close volume HlenC) as (Hs & Hl & Hr).
  destruct ohlcv_labels_elem as (HinO & HinH & HinL & HinC & HinV).
  unfold create_plotly_json.
  rewrite (with_indicators_ohlcv _ _ _ _ "Open") by done. rewrite HO; exc_simpl.
  rewrite (with_indicators_ohlcv _ _ _ _ "High") by done. rewrite HH; exc_simpl.
  rewrite (with_indicators_ohlcv _ _ _ _ "Low") by done. rewrite HL; exc_simpl.
  rewrite (with_indicators_ohlcv _ _ _ _ "Close") by done. rewrite HC; exc_simpl.
  rewrite Hs; exc_simpl. rewrite Hl; exc_simpl.
  rewrite (with_indicators_ohlcv _ _ _ _ "Volume") by done. rewrite HV; exc_simpl.
  by rewrite Hr.
Qed.

Lemma getitem_None df l : df_cols df !! l = None → getitem df l = raise (KeyError l).
Proof. intros Hl. unfold getitem. by rewrite Hl. Qed.

Lemma getitem_raises df l e : getitem df l = raise e → e = KeyError l.
Proof.
  unfold getitem. destruct (df_cols df !! l); [done|]. by intros [= <-].
Qed.



Lemma screen_loop_invariant (P : LoopState → Prop) full c p tickers st :
  P st → (∀ st t, P st → P (process_ticker full c p st t)) →
  P (foldl (process_ticker full c p) st tickers).
Proof.
  intros Hst Hstep. revert st Hst.
  induction tickers as [|t tickers IH]; intros st Hst; simpl; auto.
Qed.

(** X8. Every chart belongs to a record: a ticker with an entry in
    [chart_jsons] has a record in [results]. *)
Theorem charts_have_records full ihsg c p res ch st chg :
  screen_and_extract full ihsg c p = ret (res, ch, st, chg) →
  ∀ t, is_Some (ch !! t) → t ∈ Ticker <$> res.
Proof.
  intros [(_ & -> & ->)|(available & _ & Hloop)]%screen_and_extract_inv.
  { intros t [? Ht]. by simplify_map_eq. }
  pose proof (screen_loop_invariant
    (λ st, ∀ t, is_Some (st.2 !! t) → t ∈ Ticker <$> st.1) full c p
    (filter (λ t, t ≠ IHSG_TICKER) available) ([], ∅)) as Hinv.
  rewrite Hloop in Hinv. apply Hinv; clear Hinv.
  - intros t [? Ht]. by simplify_map_eq.
  - intros st' t Hst'.
    destruct (process_ticker_step full c p st' t) as [->|(r & d & Hex & Hstep)];
      [done|].
    apply examine_ticker_record in Hex
      as (_ & _ & _ & _ & _ & _ & _ & _ & _ & _ & _ & Ht & _).
    destruct Hstep as [(e & _ & ->)|(chart & _ & ->)]; simpl; intros t' Hsome;
      rewrite fmap_app, elem_of_app.
    + left. by apply Hst'.
    + destruct (decide (t = t')) as [<-|Hne].
      * right. simpl. rewrite Ht. by left.
      * left. apply Hst'. by rewrite lookup_insert_ne in Hsome.
Qed.

Lemma charts_have_records_witness :
  ∃ res ch st chg,
    screen_and_extract (MultiFrame [("BBCA.JK", rally_frame)])
      (Some one_bar_benchmark) default_criteria small_params
      = ret (res, ch, st, chg) ∧
    (is_Some (ch !! "BBCA.JK") → "BBCA.JK" ∈ Ticker <$> res).
Proof.
  eexists _, _, _, _. split.
  - vm_compute. reflexivity.
  - eapply (charts_have_records (MultiFrame [("BBCA.JK", rally_frame)])
              (Some one_bar_benchmark) default_criteria small_params).
    vm_compute. reflexivity.
Defined.

(** X9. When the frame of every ticker has a High and a Low column, every
    record has its chart. *)
Theorem records_have_charts full ihsg c p res ch st chg :
  (∀ t df0, extract_ticker full t = ret (Some df0) →
     is_Some (df_cols df0 !! "High") ∧ is_Some (df_cols df0 !! "Low")) →
  screen_and_extract full ihsg c p = ret (res, ch, st, chg) →
  ∀ t, t ∈ Ticker <$> res → is_Some (ch !! t).
Proof.
  intros Hcols [(_ & -> & ->)|(available & _ & Hloop)]%screen_and_extract_inv.
  { by intros t ?%elem_of_nil. }
  pose proof (screen_loop_invariant
    (λ st, ∀ t, t ∈ Ticker <$> st.1 → is_Some (st.2 !! t)) full c p
    (filter (λ t, t ≠ IHSG_TICKER) available) ([], ∅)) as Hinv.
  rewrite Hloop in Hinv. apply Hinv; clear Hinv.
  - by intros t ?%elem_of_nil.
  - intros st' t Hst'.
    destruct (process_ticker_step full c p st' t) as [->|(r & d & Hex & Hstep)];
      [done|].
    apply examine_ticker_record in Hex
      as (df0 & o & close & volume & Hext & HO & HC & HV & Hp & _ & -> & Ht & _).
    destruct (Hcols t df0 Hext)
      as [[h HH]%getitem_is_Some [l HL]%getitem_is_Some].
    pose proof (create_plotly_json_complete p df0 o h l close volume t
                  HO HH HL HC HV) as Hok.
    destruct Hstep as [(e & Hraise & _)|(chart & _ & ->)];
      [by rewrite Hok in Hraise|].
    simpl. intros t'. rewrite fmap_app, elem_of_app. simpl.
    rewrite Ht, list_elem_of_singleton.
    intros [Hold| ->]; [|by rewrite lookup_insert_eq].
    destruct (decide (t = t')) as [<-|Hne]; [by rewrite lookup_insert_eq|].
    rewrite lookup_insert_ne by done. by apply Hst'.
Qed.

Lemma records_have_charts_witness :
  ∃ res ch st chg,
    screen_and_extract (MultiFrame [("BBCA.JK", rally_frame)])
      (Some one_bar_benchmark) default_criteria small_params
      = ret (res, ch, st, chg) ∧
    ("BBCA.JK" ∈ Ticker <$> res → is_Some (ch !! "BBCA.JK")).
Proof.
  eexists _, _, _, _. split.
  - vm_compute. reflexivity.
  - eapply (records_have_charts (MultiFrame [("BBCA.JK", rally_frame)])
              (Some one_bar_benchmark) default_criteria small_params).
    + intros t df0. cbn [extract_ticker]. unfold select_ticker. simpl.
      destruct (decide (t = "BBCA.JK")) as [->|Hne].
      * rewrite lookup_insert_eq. intros [= <-]. split; by eexists.
      * rewrite lookup_insert_ne by done. by rewrite lookup_empty.
    + vm_compute. reflexivity.
Defined.

(** ** Runs without a record *)

Lemma screen_loop_none full c p tickers :
  (∀ t, match examine_ticker full c p t with
        | inr (Some _) => False
        | _ => True
        end) →
  foldl (process_ticker full c p) ([], ∅) tickers = ([], ∅).
Proof.
  intros Hnone. apply (screen_loop_invariant (λ st, st = ([], ∅))); [done|].
  intros st t ->. unfold process_ticker. specialize (Hnone t).
  by destruct (examine_ticker full c p t) as [e|[[r d]|]].
Qed.

Lemma screen_and_extract_none full ihsg c p :
  (∀ t, match examine_ticker full c p t with
        | inr (Some _) => False
        | _ => True
        end) →
  screen_and_extract full ihsg c p = no_record full ihsg.
Proof.
  intros Hnone. unfold screen_and_extract, no_record.
  destruct (tickers_available full) as [available|]; [|done].
  destruct (ihsg_analysis ihsg) as [e|[status change]]; exc_simpl; [done|].
  by rewrite screen_loop_none.
Qed.

Lemma analyze_no_record yf sv form full ihsg :
  load_historical_data yf
    (elements (list_to_set (form_tickers_list form ++ [IHSG_TICKER])
               : gset string)) (form_period form) = (full, ihsg) →
  screen_and_extract full ihsg (criteria_of_form form) (indicators_of_form form)
    = no_record full ihsg →
  ∃ message, analyze yf sv form = ErrorPage message.
Proof.
  intros Hload Hscreen. unfold analyze.
  case_bool_decide; [by eexists|].
  rewrite Hload, Hscreen. unfold no_record.
  destruct (tickers_available full); [|by eexists].
  destruct (ihsg_analysis ihsg) as [e|[status change]]; exc_simpl.
  - destruct e; by eexists.
  - by eexists.
Qed.

(** X10. With a negative rolling window no ticker contributes: the run of
    the indicators raises for every ticker, [screen_and_extract] returns no
    record and no chart, and [analyze] renders an error page. *)
Theorem negative_window_no_record full ihsg c p :
  ¬ valid_windows p →
  screen_and_extract full ihsg c p = no_record full ihsg ∧
  (∀ yf sv form, p = indicators_of_form form →
     ∃ message, analyze yf sv form = ErrorPage message).
Proof.
  intros Hp.
  assert (∀ full' c' t, match examine_ticker full' c' p t with
                | inr (Some _) => False
                | _ => True
                end) as Hnone.
  { intros full' c' t.
    destruct (examine_ticker full' c' p t) as [e|[[r d]|]] eqn:Hex; [done| |done].
    apply examine_ticker_inv in Hex as (_ & _ & _ & _ & _ & _ & _ & _ & ? & _).
    done. }
  split; [apply screen_and_extract_none; intros t; apply Hnone|].
  intros yf sv form ->.
  destruct (load_historical_data yf
    (elements (list_to_set (form_tickers_list form ++ [IHSG_TICKER])
               : gset string)) (form_period form)) as [full' ihsg'] eqn:Hload.
  eapply analyze_no_record; [exact Hload|].
  apply screen_and_extract_none; intros t; apply Hnone.
Qed.

Lemma negative_window_no_record_witness :
  screen_and_extract (MultiFrame [("BBCA.JK", rally_frame)])
    (Some one_bar_benchmark) default_criteria (mkIndicatorParams (-1) 3 2 2 2)
  = no_record (MultiFrame [("BBCA.JK", rally_frame)]) (Some one_bar_benchmark).
Proof.
  apply negative_window_no_record. unfold valid_windows. simpl. lia.
Defined.

(** X12. A single-level table is never screened unless its column index is
    named 'Ticker' and its first column label is not the benchmark:
    [screen_and_extract] returns no record, and [analyze], which gets no
    benchmark with such a table, renders the message that no stock
    passed. *)
Theorem single_level_table_unscreened name c0 df :
  name ≠ Some "Ticker" ∨ c0 = IHSG_TICKER →
  (∀ ihsg c p,
     screen_and_extract (FlatFrame name c0 df) ihsg c p
       = no_record (FlatFrame name c0 df) ihsg) ∧
  (∀ yf sv form,
     form_tickers_list form ≠ [] →
     (∀ ts per, yf ts per = ret (FlatFrame name c0 df)) →
     analyze yf sv form = ErrorPage (Plain no_result_message)).
Proof.
  intros Hname.
  assert (∀ ihsg c p,
     screen_and_extract (FlatFrame name c0 df) ihsg c p
       = no_record (FlatFrame name c0 df) ihsg) as Hscreen.
  { intros ihsg c p. unfold screen_and_extract, no_record. simpl.
    destruct (negb (df_empty df)); [|done].
    destruct (ihsg_analysis ihsg) as [e|[status change]]; exc_simpl; [done|].
    case_bool_decide as Hn; [|done].
    destruct Hname as [?| ->]; [done|].
    rewrite filter_cons_False by (by intros ?). done. }
  split; [done|].
  intros yf sv form Hform Hyf. unfold analyze.
  rewrite bool_decide_eq_false_2 by done.
  unfold load_historical_data. rewrite Hyf. exc_simpl.
  rewrite Hscreen. unfold no_record. simpl.
  by destruct (negb (df_empty df)).
Qed.

Lemma single_level_table_unscreened_witness :
  analyze (λ _ _, ret (FlatFrame None "Close" rally_frame)) stable_sort rally_form
    = ErrorPage (Plain no_result_message).
Proof.
  destruct (single_level_table_unscreened None "Close" rally_frame) as [_ Hpage].
  - by left.
  - apply Hpage; [done|]. intros ts per. reflexivity.
Defined.

(** X13. A benchmark that has rows but no Close column makes
    [screen_and_extract] raise KeyError 'Close': the benchmark is read
    outside the [try] of the loop.  Only the early return on an empty
    single-level table comes first. *)
Theorem benchmark_without_close_raises full d c p :
  is_Some (tickers_available full) →
  df_empty d = false → df_cols d !! "Close" = None →
  screen_and_extract full (Some d) c p = raise (KeyError "Close").
Proof.
  intros [available Hav] Hd HC. unfold screen_and_extract. rewrite Hav.
  unfold ihsg_analysis. rewrite Hd. cbn [negb].
  by rewrite (getitem_None _ _ HC).
Qed.

Lemma benchmark_without_close_raises_witness :
  screen_and_extract (MultiFrame [("BBCA.JK", rally_frame)])
    (Some (mkDataFrame 1 {["Open" := [of_Z 7000]]})) default_criteria
    small_params = raise (KeyError "Close").
Proof.
  apply benchmark_without_close_raises.
  - by eexists.
  - reflexivity.
  - reflexivity.
Defined.

(** ** Raising the minimum volume *)

Lemma min_volume_ok_mono c lo hi x :
  (lo ≤ hi)%Z →
  min_volume_ok (with_min_volume c hi) x = true →
  min_volume_ok (with_min_volume c lo) x = true.
Proof.
  intros Hle. unfold min_volume_ok, fgt, flt, of_Z.
  cbn [with_min_volume min_volume_shares].
  destruct x as [a| | |]; try done.
  rewrite !bool_decide_eq_true. intros Hhi.
  apply Qcle_lt_trans with (Qc_of_Z hi); [|exact Hhi].
  exact (proj1 (Z2Qc_inj_le lo hi) Hle).
Qed.

Lemma examine_ticker_min_volume full c p t lo hi :
  (lo ≤ hi)%Z →
  match examine_ticker full (with_min_volume c hi) p t with
  | inl e => examine_ticker full (with_min_volume c lo) p t = inl e
  | inr (Some x) => examine_ticker full (with_min_volume c lo) p t = inr (Some x)
  | inr None => ∃ o, examine_ticker full (with_min_volume c lo) p t = inr o
  end.
Proof.
  intros Hle. unfold examine_ticker.
  destruct (extract_ticker full t) as [e|[df0|]]; exc_simpl; [done| |by eexists].
  destruct (calculate_indicators p df0) as [df [e|[]]]; [done|].
  destruct (iloc_neg df 1) as [e|latest]; exc_simpl; [done|].
  destruct (if decide (1 < df_len df)%nat then iloc_neg df 2 else ret latest)
    as [e|yesterday]; exc_simpl; [done|].
  destruct (row_getitem latest "Close") as [e|cc]; exc_simpl; [done|].
  destruct (row_getitem yesterday "Close") as [e|yc]; exc_simpl; [done|].
  destruct (row_getitem latest "Open") as [e|co]; exc_simpl; [done|].
  destruct (row_getitem latest "Volume") as [e|cv]; exc_simpl; [done|].
  change (open_ratio_ok (with_min_volume c hi)) with (open_ratio_ok c).
  change (open_ratio_ok (with_min_volume c lo)) with (open_ratio_ok c).
  change (min_price_ok (with_min_volume c hi)) with (min_price_ok c).
  change (min_price_ok (with_min_volume c lo)) with (min_price_ok c).
  destruct (open_ratio_ok c co yc && min_price_ok c cc); cbn [andb ret];
    [|by eexists].
  destruct (min_volume_ok (with_min_volume c hi) cv) eqn:Hhi.
  - by rewrite (min_volume_ok_mono c lo hi cv Hle Hhi).
  - cbn [ret]. destruct (min_volume_ok (with_min_volume c lo) cv); by eexists.
Qed.

Lemma screen_loop_min_volume full c p lo hi tickers st_hi st_lo :
  (lo ≤ hi)%Z → st_hi.1 `sublist_of` st_lo.1 →
  (foldl (process_ticker full (with_min_volume c hi) p) st_hi tickers).1
    `sublist_of`
  (foldl (process_ticker full (with_min_volume c lo) p) st_lo tickers).1.
Proof.
  intros Hle. revert st_hi st_lo.
  induction tickers as [|t tickers IH]; intros st_hi st_lo Hsub; [done|].
  simpl. apply IH.
  destruct st_hi as [r_hi ch_hi], st_lo as [r_lo ch_lo].
  simpl in Hsub. unfold process_ticker.
  pose proof (examine_ticker_min_volume full c p t lo hi Hle) as Hex.
  destruct (examine_ticker full (with_min_volume c hi) p t) as [e|[[r d]|]].
  - by rewrite Hex.
  - rewrite Hex.
    destruct (create_plotly_json d t p); simpl; by apply sublist_app.
  - destruct Hex as [o ->]. destruct o as [[r d]|]; [|done].
    destruct (create_plotly_json d t p); simpl; by apply sublist_inserts_r.
Qed.

(** X11. Screening is monotonic in [min_volume_shares]: with a higher
    minimum the run raises the same exception, or returns records that are
    among those of the run with the lower minimum, in the same order. *)
Theorem min_volume_monotone full ihsg c p lo hi :
  (lo ≤ hi)%Z →
  match screen_and_extract full ihsg (with_min_volume c hi) p,
        screen_and_extract full ihsg (with_min_volume c lo) p with
  | inr (res_hi, _, _, _), inr (res_lo, _, _, _) =>
      res_hi `sublist_of` res_lo ∧ (length res_hi ≤ length res_lo)%nat
  | inl e_hi, inl e_lo => e_hi = e_lo
  | _, _ => False
  end.
Proof.
  intros Hle. unfold screen_and_extract.
  destruct (tickers_available full) as [available|]; cbn [ret]; [|done].
  destruct (ihsg_analysis ihsg) as [e|[status change]]; exc_simpl; [done|].
  pose proof (screen_loop_min_volume full c p lo hi
                (filter (λ t, t ≠ IHSG_TICKER) available) ([], ∅) ([], ∅)
                Hle (reflexivity _)) as Hsub.
  destruct (foldl (process_ticker full (with_min_volume c hi) p) _ _)
    as [res_hi ch_hi].
  destruct (foldl (process_ticker full (with_min_volume c lo) p) _ _)
    as [res_lo ch_lo].
  simpl in Hsub. cbn [ret]. split; [done|by apply sublist_length].
Qed.

Lemma min_volume_monotone_witness :
  match screen_and_extract
          (MultiFrame [("BBCA.JK", rally_frame); ("TLKM.JK", thin_frame)])
          (Some one_bar_benchmark) (with_min_volume default_criteria 5000000)
          small_params,
        screen_and_extract
          (MultiFrame [("BBCA.JK", rally_frame); ("TLKM.JK", thin_frame)])
          (Some one_bar_benchmark) (with_min_volume default_criteria 500)
          small_params with
  | inr (res_hi, _, _, _), inr (res_lo, _, _, _) =>
      res_hi `sublist_of` res_lo ∧ (length res_hi ≤ length res_lo)%nat
  | inl e_hi, inl e_lo => e_hi = e_lo
  | _, _ => False
  end.
Proof. apply min_volume_monotone. lia. Defined.

(** ** What load_historical_data hands over *)

Lemma loc_level1_inr groups labels stock :
  loc_level1 groups labels = ret stock →
  stock = filter (λ g, g.1 ∈ labels) groups.
Proof.
  unfold loc_level1. destruct (filter _ labels); [|done]. by intros [= <-].
Qed.

(** The three ways [load_historical_data] ends. *)
Lemma load_historical_data_cases yf tickers period full ihsg :
  load_historical_data yf tickers period = (full, ihsg) →
  (full = empty_frame ∧ ihsg = Some empty_df) ∨
  (∃ name c0 df,
     yf (list_to_set (tickers ++ [IHSG_TICKER])) period
       = ret (FlatFrame name c0 df) ∧
     full = FlatFrame name c0 df ∧ ihsg = None) ∨
  (∃ groups stock,
     yf (list_to_set (tickers ++ [IHSG_TICKER])) period = ret (MultiFrame groups) ∧
     full = MultiFrame stock ∧
     (∀ g, g ∈ stock → g ∈ groups ∧ g.1 ∈ tickers ∧ g.1 ≠ IHSG_TICKER) ∧
     (∀ g, g ∈ groups → g.1 ∈ tickers → g.1 ≠ IHSG_TICKER → g ∈ stock) ∧
     (∀ d, ihsg = Some d → (IHSG_TICKER, d) ∈ groups) ∧
     (ihsg = None → IHSG_TICKER ∉ groups.*1)).
Proof.
  unfold load_historical_data.
  destruct (yf _ period) as [e|[groups|name c0 df]]; exc_simpl.
  - intros [= <- <-]. by left.
  - destruct (loc_level1 groups _) as [e|stock] eqn:Hloc; exc_simpl.
    { intros [= <- <-]. by left. }
    apply loc_level1_inr in Hloc.
    assert (∀ g, g ∈ stock ↔ g ∈ groups ∧ g.1 ∈ tickers ∧ g.1 ≠ IHSG_TICKER)
      as Hstock.
    { intros g. rewrite Hloc, list_elem_of_filter, list_elem_of_filter. tauto. }
    case_bool_decide as Hin; exc_simpl.
    + destruct (select_ticker groups IHSG_TICKER) as [e|d] eqn:Hsel; exc_simpl.
      { intros [= <- <-]. by left. }
      intros [= <- <-]. right. right. exists groups, stock.
      split_and!; try done.
      * intros g Hg. by apply Hstock in Hg.
      * intros g ? ? ?. by apply Hstock.
      * intros d' [= <-]. by apply select_ticker_elem.
    + intros [= <- <-]. right. right. exists groups, stock.
      split_and!; try done.
      * intros g Hg. by apply Hstock in Hg.
      * intros g ? ? ?. by apply Hstock.
  - intros [= <- <-]. right. left. by exists name, c0, df.
Qed.

(** X14. The table that [load_historical_data] returns holds only tickers
    that were asked for and never the benchmark, each with the frame the
    provider gave, and all of those that the provider has; the benchmark it
    returns is the provider's frame for the benchmark.  After a single-level
    response there is no benchmark, and after a failure both are empty. *)
Theorem load_historical_data_selects yf tickers period full ihsg :
  load_historical_data yf tickers period = (full, ihsg) →
  (full = empty_frame ∧ ihsg = Some empty_df) ∨
  (∃ name c0 df,
     yf (list_to_set (tickers ++ [IHSG_TICKER])) period
       = ret (FlatFrame name c0 df) ∧
     full = FlatFrame name c0 df ∧ ihsg = None) ∨
  (∃ groups stock,
     yf (list_to_set (tickers ++ [IHSG_TICKER])) period = ret (MultiFrame groups) ∧
     full = MultiFrame stock ∧
     (∀ g, g ∈ stock → g ∈ groups ∧ g.1 ∈ tickers ∧ g.1 ≠ IHSG_TICKER) ∧
     (∀ g, g ∈ groups → g.1 ∈ tickers → g.1 ≠ IHSG_TICKER → g ∈ stock) ∧
     (∀ d, ihsg = Some d → (IHSG_TICKER, d) ∈ groups) ∧
     (ihsg = None → IHSG_TICKER ∉ groups.*1)).
Proof. apply load_historical_data_cases. Qed.

Lemma load_historical_data_selects_witness :
  ∃ stock,
    (load_historical_data download_thin ["TLKM.JK"] "6mo").1 = MultiFrame stock ∧
    ∀ g, g ∈ stock → g.1 ≠ IHSG_TICKER.
Proof.
  destruct (load_historical_data_selects download_thin ["TLKM.JK"] "6mo"
              (MultiFrame [("TLKM.JK", thin_frame)]) (Some one_bar_benchmark))
    as [[Hempty _]|[(name & c0 & df & Hflat & _)|
        (groups & stock & _ & Hfull & Hstock & _)]].
  - reflexivity.
  - discriminate Hempty.
  - discriminate Hflat.
  - exists stock. split.
    + rewrite <-Hfull. reflexivity.
    + intros g Hg. by apply Hstock.
Defined.

(** ** Short histories *)

Lemma short_history_extract yf tickers period full ihsg days :
  (∀ ts per, short_history days (yf ts per)) →
  load_historical_data yf tickers period = (full, ihsg) →
  ∀ t df0, extract_ticker full t = ret (Some df0) → (df_len df0 ≤ days)%nat.
Proof.
  intros Hshort Hload t df0.
  specialize (Hshort (list_to_set (tickers ++ [IHSG_TICKER])) period).
  destruct (load_historical_data_cases _ _ _ _ _ Hload)
    as [[-> _]|[(name & c0 & df & Hyf & -> & _)|
        (groups & stock & Hyf & -> & Hsub & _)]].
  - simpl. intros [= <-]. simpl. lia.
  - rewrite Hyf in Hshort. simpl in Hshort. simpl.
    case_match; [done|]. by intros [= <-].
  - rewrite Hyf in Hshort. simpl in Hshort. cbn [extract_ticker].
    destruct (select_ticker stock t) as [e|d] eqn:Hsel; exc_simpl; [done|].
    intros [= <-]. apply select_ticker_elem in Hsel.
    apply Hsub in Hsel as (Hsel & _).
    rewrite Forall_forall in Hshort. by apply (Hshort _ Hsel).
Qed.

(** A ticker with no more bars than [hist_days] gets a record without a
    trailing return. *)
Lemma screen_short_history full ihsg c p res ch st chg :
  (∀ t df0, extract_ticker full t = ret (Some df0) →
     (Z.of_nat (df_len df0) ≤ hist_days p)%Z) →
  screen_and_extract full ihsg c p = ret (res, ch, st, chg) →
  Forall (λ r, Gain_30D r = NaN) res.
Proof.
  intros Hshort [(_ & -> & _)|(available & _ & Hloop)]%screen_and_extract_inv;
    [constructor|].
  pose proof (screen_loop_invariant
    (λ st, Forall (λ r, Gain_30D r = NaN) st.1) full c p
    (filter (λ t, t ≠ IHSG_TICKER) available) ([], ∅)) as Hinv.
  rewrite Hloop in Hinv. apply Hinv; clear Hinv; [constructor|].
  intros st' t Hst'.
  destruct (process_ticker_step full c p st' t) as [->|(r & d & Hex & Hstep)];
    [done|].
  apply examine_ticker_record in Hex
    as (df0 & o & close & volume & Hext & _ & HC & _ & _ & Hn & _ & _ & Hgain).
  assert (Gain_30D r = NaN) as Hnan.
  { rewrite Hgain. pose proof (getitem_length _ _ _ HC) as Hlen.
    specialize (Hshort t df0 Hext).
    apply hist_return_total_fill; lia. }
  destruct Hstep as [(e & _ & ->)|(chart & _ & ->)]; simpl;
    apply Forall_app; by repeat constructor.
Qed.

Lemma dropna_all_nan rows : Forall (λ r, Gain_30D r = NaN) rows → dropna rows = [].
Proof.
  induction 1 as [|r rows Hr _ IH]; [done|].
  unfold dropna in *. rewrite filter_cons_False; [done|]. by rewrite Hr.
Qed.

(** What a results page of [analyze] is made from. *)
Lemma analyze_results_page_inv yf sv form final ch st chg :
  analyze yf sv form = ResultsPage final ch st chg →
  ∃ full ihsg results,
    load_historical_data yf
      (elements (list_to_set (form_tickers_list form ++ [IHSG_TICKER])
                 : gset string)) (form_period form) = (full, ihsg) ∧
    screen_and_extract full ihsg (criteria_of_form form)
      (indicators_of_form form) = ret (results, ch, st, chg) ∧
    results ≠ [] ∧ final = rank sv results.
Proof.
  unfold analyze. case_bool_decide; [done|].
  destruct (load_historical_data _ _ _) as [full ihsg].
  destruct (screen_and_extract _ _ _ _) as [e|[[[results ch'] st'] chg']]
    eqn:Hscreen; exc_simpl.
  { by destruct e. }
  case_bool_decide; [done|]. cbn [ret].
  intros [= <- <- <- <-]. by exists full, ihsg, results.
Qed.

(** X15. [analyze] fixes the look-back of the trailing return at 30 bars,
    so when the data provider has at most 30 bars for every ticker, no
    record has a trailing return and the ranking of a results page is
    empty, however many tickers passed the filters. *)
Theorem short_history_unranked yf sv form final ch st chg :
  sort_values_contract sv →
  (∀ ts per, short_history 30 (yf ts per)) →
  analyze yf sv form = ResultsPage final ch st chg →
  final = [].
Proof.
  intros Hsort Hshort
    (full & ihsg & results & Hload & Hscreen & _ & ->)%analyze_results_page_inv.
  assert (Forall (λ r, Gain_30D r = NaN) results) as Hnan.
  { eapply screen_short_history; [|exact Hscreen].
    intros t df0 Hext. simpl.
    pose proof (short_history_extract _ _ _ _ _ _ Hshort Hload t df0 Hext). lia. }
  unfold rank. apply dropna_all_nan.
  destruct (Hsort results) as [Hperm _]. by rewrite Hperm.
Qed.

Lemma short_history_unranked_witness :
  ∃ final ch st chg,
    analyze download_rally stable_sort rally_form = ResultsPage final ch st chg ∧
    final = [].
Proof.
  eexists _, _, _, _. split.
  - vm_compute. reflexivity.
  - eapply (short_history_unranked download_rally stable_sort rally_form).
    + apply stable_sort_contract.
    + intros ts per. simpl. repeat constructor; simpl; lia.
    + vm_compute. reflexivity.
Defined.

(** ** The route *)

Lemma int_field_raises py_int fd key dflt e :
  int_field py_int fd key dflt = raise e → ∃ msg, e = ValueError msg.
Proof.
  unfold int_field. destruct (fd !! key) as [s|]; [|done].
  destruct (py_int s); [|done]. intros [= <-]. by eexists.
Qed.

Lemma float_field_raises py_float fd key dflt e :
  float_field py_float fd key dflt = raise e → ∃ msg, e = ValueError msg.
Proof.
  unfold float_field. destruct (fd !! key) as [s|]; [|done].
  destruct (py_float s); [|done]. intros [= <-]. by eexists.
Qed.

Lemma read_criteria_raises py_float py_int fd e :
  read_criteria py_float py_int fd = raise e → ∃ msg, e = ValueError msg.
Proof.
  unfold read_criteria.
  destruct (float_field _ _ _ _) as [e1|x] eqn:H1; exc_simpl.
  { intros [= <-]. by eapply float_field_raises. }
  destruct (int_field _ _ "min_price" _) as [e2|y] eqn:H2; exc_simpl.
  { intros [= <-]. by eapply int_field_raises. }
  destruct (int_field _ _ "min_volume_shares" _) as [e3|z] eqn:H3; exc_simpl.
  { intros [= <-]. by eapply int_field_raises. }
  done.
Qed.

Lemma read_indicators_raises py_int fd e :
  read_indicators py_int fd = raise e → ∃ msg, e = ValueError msg.
Proof.
  unfold read_indicators.
  destruct (int_field _ _ "sma_short" _) as [e1|x] eqn:H1; exc_simpl.
  { intros [= <-]. by eapply int_field_raises. }
  destruct (int_field _ _ "sma_long" _) as [e2|y] eqn:H2; exc_simpl.
  { intros [= <-]. by eapply int_field_raises. }
  destruct (int_field _ _ "rsi_period" _) as [e3|z] eqn:H3; exc_simpl.
  { intros [= <-]. by eapply int_field_raises. }
  done.
Qed.

(** X16. The route lets an exception out exactly when one of the three
    criteria of the form cannot be converted: the handler converts them
    again outside of any [try].  When the criteria can be read and a window
    cannot, the error page shows the message of the conversion.  When all
    can be read the route renders a page. *)
Theorem analyze_route_outcomes yf sv py_float py_int fd :
  (∀ e, read_criteria py_float py_int fd = raise e →
     analyze_route yf sv py_float py_int fd = raise e) ∧
  (∀ c msg, read_criteria py_float py_int fd = ret c →
     read_indicators py_int fd = raise (ValueError msg) →
     analyze_route yf sv py_float py_int fd
       = ret (mkRendered
                (handler_tickers_str
                   (selected_tickers (default "" (fd !! "tickers_list"))))
                c (20, 60, 14)%Z (default "6mo" (fd !! "period"))
                (ErrorPage (Plain msg)))) ∧
  (∀ c, read_criteria py_float py_int fd = ret c →
     ∃ rendered, analyze_route yf sv py_float py_int fd = ret rendered ∧
                 shown_criteria rendered = c).
Proof.
  split_and!.
  - intros e He. destruct (read_criteria_raises _ _ _ _ He) as [msg ->].
    unfold analyze_route. rewrite He. by exc_simpl.
  - intros c msg Hc Hw. unfold analyze_route. rewrite Hc, Hw. by exc_simpl.
  - intros c Hc. unfold analyze_route. rewrite Hc. exc_simpl.
    destruct (read_indicators py_int fd) as [e|[[a b] r]] eqn:Hw; exc_simpl.
    + destruct (read_indicators_raises _ _ _ Hw) as [msg ->]. by eexists.
    + destruct (analyze _ _ _); by eexists.
Qed.

Lemma analyze_route_outcomes_witness :
  analyze_route download_rally stable_sort sample_py_float sample_py_int
    (<["tickers_list" := "bbca.jk"]> (<["min_price" := "x"]> ∅))
  = raise (ValueError "invalid literal for int() with base 10: x").
Proof.
  destruct (analyze_route_outcomes download_rally stable_sort sample_py_float
              sample_py_int
              (<["tickers_list" := "bbca.jk"]> (<["min_price" := "x"]> ∅)))
    as [Hraise _].
  apply Hraise. reflexivity.
Defined.

(** X17. An error page gives the form back with the user's criteria and
    period, with the tickers that were read (the default list when none
    was), and with the windows set to 20, 60 and 14 whatever the user
    entered; a results page keeps the windows that the user entered. *)
Theorem rendered_form yf sv py_float py_int fd rendered :
  analyze_route yf sv py_float py_int fd = ret rendered →
  read_criteria py_float py_int fd = ret (shown_criteria rendered) ∧
  shown_period rendered = default "6mo" (fd !! "period") ∧
  match shown_page rendered with
  | ErrorPage _ =>
      shown_indicators rendered = (20, 60, 14)%Z ∧
      input_tickers_str rendered
        = handler_tickers_str
            (selected_tickers (default "" (fd !! "tickers_list")))
  | ResultsPage _ _ _ _ =>
      read_indicators py_int fd = ret (shown_indicators rendered) ∧
      input_tickers_str rendered
        = String.concat ", "
            (selected_tickers (default "" (fd !! "tickers_list")))
  end.
Proof.
  unfold analyze_route.
  destruct (read_criteria py_float py_int fd) as [e|c] eqn:Hc; exc_simpl.
  { by destruct e. }
  destruct (read_indicators py_int fd) as [e|[[a b] r]] eqn:Hw; exc_simpl.
  { destruct e; intros [= <-]; by simpl. }
  destruct (analyze _ _ _); intros [= <-]; by simpl.
Qed.

Lemma rendered_form_witness :
  ∃ rendered,
    analyze_route download_rally stable_sort sample_py_float sample_py_int
      (<["tickers_list" := "bbca.jk"]> (<["sma_short" := "x"]> ∅))
      = ret rendered ∧
    shown_indicators rendered = (20, 60, 14)%Z.
Proof.
  eexists. split.
  - vm_compute. reflexivity.
  - match goal with
    | |- shown_indicators ?r = _ =>
        assert (analyze_route download_rally stable_sort sample_py_float
                  sample_py_int
                  (<["tickers_list" := "bbca.jk"]> (<["sma_short" := "x"]> ∅))
                = ret r) as Hrun by (vm_compute; reflexivity)
    end.
    apply rendered_form in Hrun as (_ & _ & Hpage).
    exact (proj1 Hpage).
Defined.

(** ** The ticker text *)

Lemma lstrip_no_space t : no_space t → lstrip t = t.
Proof. destruct 1 as [|ch t Hch _]; [done|]. simpl. by rewrite Hch. Qed.

Lemma no_space_reverse t : no_space t → no_space (reverse t).
Proof. unfold no_space. by rewrite Forall_reverse. Qed.

Lemma reverse_cons_not_nil {A} (x : A) l : reverse (x :: l) ≠ [].
Proof.
  intros Hnil. apply (f_equal length) in Hnil.
  by rewrite length_reverse in Hnil.
Qed.

Lemma strip_no_space t : no_space t → strip t = t.
Proof.
  intros Ht. unfold strip. rewrite (lstrip_no_space t Ht).
  rewrite lstrip_no_space by by apply no_space_reverse.
  apply reverse_involutive.
Qed.

Lemma split_go_tokens cur s :
  no_space cur → Forall (λ t, t ≠ [] ∧ no_space t) (split_go cur s).
Proof.
  revert cur. induction s as [|ch s IH]; intros cur Hcur; simpl.
  - destruct cur as [|c cur]; [constructor|].
    repeat constructor; [apply reverse_cons_not_nil|by apply no_space_reverse].
  - destruct (isspace ch) eqn:Hch.
    + destruct cur as [|c cur]; [apply IH; constructor|].
      constructor; [|apply IH; constructor].
      split; [apply reverse_cons_not_nil|by apply no_space_reverse].
    + apply IH. by constructor.
Qed.

Lemma split_go_chars cur s :
  Forall (λ t, Forall (λ ch, ch ∈ cur ∨ ch ∈ s) t) (split_go cur s).
Proof.
  revert cur. induction s as [|ch s IH]; intros cur; simpl.
  - destruct cur as [|c cur]; [constructor|].
    repeat constructor. apply Forall_forall. intros x Hx.
    left. by rewrite elem_of_reverse in Hx.
  - assert (∀ cur', (∀ x, x ∈ cur' → x ∈ cur ∨ x ∈ ch :: s) →
        Forall (λ t, Forall (λ x, x ∈ cur ∨ x ∈ ch :: s) t) (split_go cur' s))
      as Hrest.
    { intros cur' Hcur'. eapply Forall_impl; [apply IH|]. simpl.
      intros t Ht. eapply Forall_impl; [exact Ht|]. simpl.
      intros x [Hx|Hx]; [by apply Hcur'|right; by right]. }
    destruct (isspace ch).
    + destruct cur as [|c cur].
      * apply Hrest. by intros x ?%elem_of_nil.
      * constructor.
        -- apply Forall_forall. intros x Hx. left. by rewrite elem_of_reverse in Hx.
        -- apply Hrest. by intros x ?%elem_of_nil.
    + apply Hrest. intros x [->|Hx]%elem_of_cons; [right; by left|by left].
Qed.

Lemma split_go_nil cur s :
  split_go cur s = [] ↔ cur = [] ∧ Forall (λ ch, isspace ch = true) s.
Proof.
  revert cur. induction s as [|ch s IH]; intros cur; simpl.
  - destruct cur; split; try done. by intros [? _].
  - destruct (isspace ch) eqn:Hch.
    + destruct cur as [|c cur].
      * rewrite IH. split; intros [? Hs]; split; try done.
        -- by constructor.
        -- by apply Forall_cons in Hs as [_ ?].
      * split; [done|]. by intros [? _].
    + rewrite IH. split; [by intros [? _]|].
      intros [_ Hs]. apply Forall_cons in Hs as [Hs _]. congruence.
Qed.

Lemma upper_char_facts ch :
  upper_char (upper_char ch) = upper_char ch ∧
  (isspace ch = false → isspace (upper_char ch) = false) ∧
  (ch ≠ comma → upper_char ch ≠ comma).
Proof.
  destruct ch as [[] [] [] [] [] [] [] []]; by vm_compute.
Qed.

Lemma clean_separators_fmap s : clean_separators s = clean_char <$> s.
Proof.
  unfold clean_separators, replace_char. rewrite <-!list_fmap_compose.
  apply list_fmap_ext. intros _ ch _. simpl.
  destruct ch as [[] [] [] [] [] [] [] []]; by vm_compute.
Qed.

Lemma clean_char_facts ch :
  isspace (clean_char ch) = isspace ch || bool_decide (ch = comma) ∧
  bool_decide (clean_char ch = comma) = false ∧
  isspace ch || bool_decide (ch = comma) || bool_decide (clean_char ch = ch)
    = true.
Proof.
  destruct ch as [[] [] [] [] [] [] [] []]; by vm_compute.
Qed.

Lemma strip_tokens (l : list (list Ascii.ascii)) :
  Forall (λ t, t ≠ [] ∧ no_space t) l →
  (λ t, text (upper (strip t))) <$> filter (λ t, strip t ≠ []) l
  = (λ t, text (upper t)) <$> l.
Proof.
  induction 1 as [|t l [Hne Ht] _ IH]; [done|].
  rewrite filter_cons_True by by rewrite strip_no_space.
  rewrite !fmap_cons, IH. by rewrite strip_no_space.
Qed.

Lemma selected_tickers_tokens s :
  selected_tickers s
  = (λ t, text (upper t)) <$> split (clean_separators (chars s)).
Proof.
  unfold selected_tickers. apply strip_tokens, split_go_tokens. constructor.
Qed.

Lemma fmap_eq_nil {A B} (f : A → B) (l : list A) : f <$> l = [] ↔ l = [].
Proof. by destruct l. Qed.

Lemma chars_text l : chars (text l) = l.
Proof. apply String.list_ascii_of_string_of_list_ascii. Qed.

Lemma text_chars s : text (chars s) = s.
Proof. apply String.string_of_list_ascii_of_string. Qed.

Lemma selected_tickers_good s :
  Forall (λ t, t ≠ "" ∧ Forall ticker_char (chars t)) (selected_tickers s).
Proof.
  rewrite selected_tickers_tokens. apply Forall_fmap.
  pose proof (split_go_tokens [] (clean_separators (chars s))
                (Forall_nil_2 _)) as Htok.
  pose proof (split_go_chars [] (clean_separators (chars s))) as Hchars.
  fold (split (clean_separators (chars s))) in Htok, Hchars.
  rewrite Forall_forall in *. intros t Ht.
  destruct (Htok t Ht) as [Hne Hns]. specialize (Hchars t Ht). simpl. split.
  - intros Hempty. apply (f_equal chars) in Hempty.
    rewrite chars_text in Hempty. by destruct t.
  - rewrite chars_text. unfold upper. apply Forall_fmap.
    rewrite Forall_forall in *. intros ch Hch.
    destruct (upper_char_facts ch) as (Hidem & Hsp & Hcomma).
    unfold no_space in Hns. rewrite Forall_forall in Hns.
    split_and!; [by apply Hsp, Hns|apply Hcomma|done].
    destruct (Hchars ch Hch) as [?%elem_of_nil|Hin]; [done|].
    rewrite clean_separators_fmap in Hin.
    apply list_elem_of_fmap in Hin as (ch0 & -> & _).
    destruct (clean_char_facts ch0) as (_ & Hc & _).
    by apply bool_decide_eq_false in Hc.
Qed.

(** X18. For ASCII text, the tickers read from the text area are never
    empty and hold no white space, comma or lower-case letter; and no
    ticker is read exactly when the text holds only white space and
    commas. *)
Theorem selected_tickers_clean s :
  ascii_text s →
  Forall (λ t, t ≠ "" ∧ Forall ticker_char (chars t)) (selected_tickers s) ∧
  (selected_tickers s = [] ↔
   Forall (λ ch, isspace ch = true ∨ ch = comma) (chars s)).
Proof.
  intros _. split; [apply selected_tickers_good|].
  rewrite selected_tickers_tokens.
  rewrite fmap_eq_nil. unfold split. rewrite split_go_nil.
  rewrite clean_separators_fmap, Forall_fmap.
  split.
  - intros [_ Hall]. eapply Forall_impl; [exact Hall|]. simpl.
    intros ch. destruct (clean_char_facts ch) as (-> & _ & _).
    intros [?|?%bool_decide_eq_true]%orb_prop; auto.
  - intros Hall. split; [done|]. eapply Forall_impl; [exact Hall|]. simpl.
    intros ch. destruct (clean_char_facts ch) as (-> & _ & _).
    intros [->| ->]; [done|]. rewrite bool_decide_eq_true_2 by done.
    apply orb_true_r.
Qed.

Lemma selected_tickers_clean_witness :
  Forall (λ t, t ≠ "" ∧ Forall ticker_char (chars t))
    (selected_tickers "bbca.jk tlkm.jk,asii.jk").
Proof.
  apply selected_tickers_clean.
  apply (bool_decide_unpack _). by vm_compute.
Defined.

Lemma chars_app a b : chars (a +:+ b) = chars a ++ chars b.
Proof. induction a as [|ch a IH]; simpl; [done|]. by rewrite IH. Qed.

Lemma split_go_run cur tok s :
  no_space tok → split_go cur (tok ++ s) = split_go (reverse tok ++ cur) s.
Proof.
  intros Htok. revert cur. induction Htok as [|ch tok Hch _ IH]; intros cur.
  - done.
  - simpl. rewrite Hch, IH, reverse_cons. by rewrite <-(assoc_L (++)).
Qed.

Lemma ticker_chars_no_space l : Forall ticker_char l → no_space l.
Proof. intros Hl. eapply Forall_impl; [exact Hl|]. by intros ch (? & _). Qed.

Lemma ticker_chars_clean l : Forall ticker_char l → clean_char <$> l = l.
Proof.
  induction 1 as [|ch l (Hsp & Hc & _) _ IH]; [done|].
  rewrite fmap_cons, IH. f_equal.
  destruct (clean_char_facts ch) as (_ & _ & Hsame).
  rewrite Hsp, bool_decide_eq_false_2 in Hsame by done.
  by apply bool_decide_eq_true in Hsame.
Qed.

Lemma ticker_chars_upper l : Forall ticker_char l → upper l = l.
Proof.
  induction 1 as [|ch l (_ & _ & Hup) _ IH]; [done|].
  unfold upper in *. by rewrite fmap_cons, IH, Hup.
Qed.

Lemma split_go_end cur : cur ≠ [] → split_go cur [] = [reverse cur].
Proof. by destruct cur. Qed.

Lemma split_go_spaces cur s :
  cur ≠ [] →
  split_go cur (space :: space :: s) = reverse cur :: split_go [] s.
Proof. by destruct cur. Qed.

(** Splitting the text made by [", ".join] gives the tickers back. *)
Lemma split_joined (ts : list string) :
  Forall (λ t, t ≠ "" ∧ Forall ticker_char (chars t)) ts →
  split (clean_separators (chars (String.concat ", " ts))) = chars <$> ts.
Proof.
  unfold split. induction 1 as [|t ts [Hne Ht] Hts IH]; [done|].
  assert (reverse (chars t) ++ [] ≠ []) as Hcur.
  { rewrite app_nil_r. intros Hnil. apply Hne.
    rewrite <-(text_chars t), <-(reverse_involutive (chars t)). by rewrite Hnil. }
  assert (reverse (reverse (chars t) ++ []) = chars t) as Hrev.
  { by rewrite app_nil_r, reverse_involutive. }
  destruct ts as [|t2 ts].
  - cbn [String.concat]. rewrite clean_separators_fmap, (ticker_chars_clean _ Ht).
    rewrite <-(app_nil_r (chars t)) at 1.
    rewrite split_go_run by by apply ticker_chars_no_space.
    by rewrite split_go_end, Hrev.
  - change (String.concat ", " (t :: t2 :: ts))
      with (t +:+ ", " +:+ String.concat ", " (t2 :: ts)).
    rewrite !chars_app, clean_separators_fmap, !fmap_app.
    rewrite (ticker_chars_clean _ Ht).
    rewrite split_go_run by by apply ticker_chars_no_space.
    change (clean_char <$> chars ", ") with [space; space].
    rewrite <-clean_separators_fmap.
    cbn [app]. rewrite split_go_spaces by done.
    rewrite Hrev, fmap_cons. f_equal. exact IH.
Qed.

Lemma selected_tickers_joined (ts : list string) :
  Forall (λ t, t ≠ "" ∧ Forall ticker_char (chars t)) ts →
  selected_tickers (String.concat ", " ts) = ts.
Proof.
  intros Hts. rewrite selected_tickers_tokens, (split_joined ts Hts).
  rewrite <-list_fmap_compose.
  induction Hts as [|t ts [_ Ht] _ IH]; [done|].
  rewrite fmap_cons, IH. simpl. by rewrite (ticker_chars_upper _ Ht), text_chars.
Qed.

(** The text that the form shows at first reads as the default list. *)
Lemma default_text_read :
  selected_tickers (String.concat ", " DEFAULT_IDX_TICKERS) = DEFAULT_IDX_TICKERS.
Proof. vm_compute. reflexivity. Qed.

(** X19. The ticker text that a page puts back in the form reads as the
    same tickers: for ASCII text, joining the tickers read with ", " and
    reading the text again gives the same list, and the text that a handler
    shows when no ticker was read gives the default list. *)
Theorem tickers_text_round_trip s :
  ascii_text s →
  selected_tickers (String.concat ", " (selected_tickers s)) = selected_tickers s ∧
  selected_tickers (handler_tickers_str (selected_tickers s))
    = match selected_tickers s with
      | [] => DEFAULT_IDX_TICKERS
      | l => l
      end.
Proof.
  intros _.
  pose proof (selected_tickers_joined _ (selected_tickers_good s)) as Hjoin.
  split; [exact Hjoin|]. unfold handler_tickers_str.
  destruct (selected_tickers s) as [|t ts]; [exact default_text_read|exact Hjoin].
Qed.

Lemma tickers_text_round_trip_witness :
  ascii_text "bbca.jk tlkm.jk,asii.jk" ∧
  selected_tickers (String.concat ", " (selected_tickers "bbca.jk tlkm.jk,asii.jk"))
  = selected_tickers "bbca.jk tlkm.jk,asii.jk".
Proof.
  assert (ascii_text "bbca.jk tlkm.jk,asii.jk") as Hascii.
  { apply (bool_decide_unpack _). by vm_compute. }
  split; [exact Hascii|].
  exact (proj1 (tickers_text_round_trip "bbca.jk tlkm.jk,asii.jk" Hascii)).
Defined.

(** X20. When no ticker is read from the form and the numbers of the form
    can be converted, the route shows the message that asks for a ticker
    and fills the form with the default tickers and the windows 20, 60 and
    14; the data provider plays no part. *)
Theorem no_ticker_page yf sv py_float py_int fd c w :
  selected_tickers (default "" (fd !! "tickers_list")) = [] →
  read_criteria py_float py_int fd = ret c →
  read_indicators py_int fd = ret w →
  analyze_route yf sv py_float py_int fd
    = ret (mkRendered (String.concat ", " DEFAULT_IDX_TICKERS) c (20, 60, 14)%Z
             (default "6mo" (fd !! "period"))
             (ErrorPage (Plain no_ticker_message))).
Proof.
  intros Hsel Hc Hw. unfold analyze_route. rewrite Hc, Hw, Hsel. exc_simpl.
  destruct w as [[a b] r]. unfold analyze. cbn [form_tickers_list].
  rewrite bool_decide_eq_true_2 by reflexivity. cbn [raise].
  reflexivity.
Qed.

Lemma no_ticker_page_witness :
  analyze_route download_rally stable_sort sample_py_float sample_py_int
    (<["tickers_list" := " , "]> ∅)
  = ret (mkRendered (String.concat ", " DEFAULT_IDX_TICKERS) default_criteria
           (20, 60, 14)%Z "6mo" (ErrorPage (Plain no_ticker_message))).
Proof.
  etrans.
  - apply (no_ticker_page download_rally stable_sort sample_py_float
             sample_py_int (<["tickers_list" := " , "]> ∅) default_criteria
             (20, 60, 14)%Z); vm_compute; reflexivity.
  - vm_compute; reflexivity.
Defined.

(** ** What a record holds *)

Lemma flt_not_nan a b : flt a b = true → a ≠ NaN ∧ b ≠ NaN.
Proof. by destruct a, b. Qed.

Lemma fle_not_nan a b : fle a b = true → a ≠ NaN ∧ b ≠ NaN.
Proof. by destruct a, b. Qed.

Lemma fmul_not_nan a b : fmul a b ≠ NaN → a ≠ NaN ∧ b ≠ NaN.
Proof. destruct a, b; simpl; intros H; split; congruence. Qed.

(** The record of a contributing ticker passes the three filters with the
    values that it holds. *)
Lemma examine_ticker_passes full c p t r d :
  examine_ticker full c p t = ret (Some (r, d)) →
  open_ratio_ok c (Open_Hari_Ini r) (Close_Kemarin r) = true ∧
  min_price_ok c (Harga_Terakhir r) = true ∧
  min_volume_ok c (Volume_Hari_Ini r) = true ∧
  Open_Close_Ratio r = fdiv (Open_Hari_Ini r) (Close_Kemarin r).
Proof.
  intros Hex.
  destruct (examine_ticker_inv _ _ _ _ _ _ Hex)
    as (df0 & open & close & volume & Hext & HO & HC & HV & Hp & Hn).
  pose proof (examine_ticker_decides full c p t df0 open close volume
                Hext HO HC HV Hp Hn) as Hd. cbv zeta in Hd.
  rewrite Hd in Hex. clear Hd.
  destruct (fgt _ (fmul _ _)) eqn:H1; [|done].
  destruct (fge _ (of_Z (min_price c))) eqn:H2; [|done].
  destruct (fgt _ (of_Z (min_volume_shares c))) eqn:H3; [|done].
  cbn [andb] in Hex. injection Hex as <- <-. by split_and!.
Qed.

(** X21. Every record that [screen_and_extract] returns passes the three
    filters with the values it holds: its open is above [open_ratio] times
    its previous close, its last price is at least [min_price] and its
    volume is above [min_volume_shares]; its ratio is its open divided by
    its previous close; hence none of these four values is NaN. *)
Theorem records_pass_filters full ihsg c p res ch st chg :
  screen_and_extract full ihsg c p = ret (res, ch, st, chg) →
  Forall (λ r,
    fgt (Open_Hari_Ini r) (fmul (open_ratio c) (Close_Kemarin r)) = true ∧
    fge (Harga_Terakhir r) (of_Z (min_price c)) = true ∧
    fgt (Volume_Hari_Ini r) (of_Z (min_volume_shares c)) = true ∧
    Open_Close_Ratio r = fdiv (Open_Hari_Ini r) (Close_Kemarin r) ∧
    Open_Hari_Ini r ≠ NaN ∧ Close_Kemarin r ≠ NaN ∧
    Harga_Terakhir r ≠ NaN ∧ Volume_Hari_Ini r ≠ NaN) res.
Proof.
  intros [(_ & -> & _)|(available & _ & Hloop)]%screen_and_extract_inv;
    [constructor|].
  pose proof (screen_loop_invariant
    (λ st, Forall (λ r,
       fgt (Open_Hari_Ini r) (fmul (open_ratio c) (Close_Kemarin r)) = true ∧
       fge (Harga_Terakhir r) (of_Z (min_price c)) = true ∧
       fgt (Volume_Hari_Ini r) (of_Z (min_volume_shares c)) = true ∧
       Open_Close_Ratio r = fdiv (Open_Hari_Ini r) (Close_Kemarin r) ∧
       Open_Hari_Ini r ≠ NaN ∧ Close_Kemarin r ≠ NaN ∧
       Harga_Terakhir r ≠ NaN ∧ Volume_Hari_Ini r ≠ NaN) st.1) full c p
    (filter (λ t, t ≠ IHSG_TICKER) available) ([], ∅)) as Hinv.
  rewrite Hloop in Hinv. apply Hinv; clear Hinv; [constructor|].
  intros st' t Hst'.
  destruct (process_ticker_step full c p st' t) as [->|(r & d & Hex & Hstep)];
    [done|].
  assert ((process_ticker full c p st' t).1 = st'.1 ++ [r]) as ->.
  { by destruct Hstep as [(e & _ & ->)|(chart & _ & ->)]. }
  apply Forall_app. split; [done|]. constructor; [|constructor].
  destruct (examine_ticker_passes _ _ _ _ _ _ Hex) as (Ho & Hp & Hv & Hr).
  unfold open_ratio_ok, min_price_ok, min_volume_ok in *.
  destruct (flt_not_nan _ _ Ho) as [Hm Hopen].
  apply fmul_not_nan in Hm as [_ Hprev].
  destruct (fle_not_nan _ _ Hp) as [_ Hclose].
  destruct (flt_not_nan _ _ Hv) as [_ Hvol].
  by split_and!.
Qed.

Lemma records_pass_filters_witness :
  ∃ res ch st chg,
    screen_and_extract (MultiFrame [("BBCA.JK", rally_frame)]) None
      default_criteria small_params = ret (res, ch, st, chg) ∧
    res ≠ [] ∧ Forall (λ r, Close_Kemarin r ≠ NaN) res.
Proof.
  eexists _, _, _, _. split; [vm_compute; reflexivity|]. split; [done|].
  eapply Forall_impl.
  - eapply (records_pass_filters (MultiFrame [("BBCA.JK", rally_frame)]) None
              default_criteria small_params).
    vm_compute. reflexivity.
  - intros r Hr. apply Hr.
Defined.

(** ** Where the oscillator is undefined *)




